(** * knowledge-base-rag: the retrieval pipeline, embedded and verified

    A shallow embedding of [src/loader.py], [src/embeddings.py],
    [src/vectorstore.py], [src/rag.py] and [main.py].  Python [str] values are lists of characters, [dict]s
    with string keys are [gmap]s, [None]-able attributes are [option]s,
    exceptions are values of [Exc], and calls that leave the process
    (embedding and generation gateways, the file system) are recorded in
    an explicit [World] threaded through a small state-and-error monad.
    [print] calls write to standard output only and are left out. *)

From Stdlib Require Import Ascii String DecimalString.
From stdpp Require Import gmap strings list fin_maps sorting.

Local Open Scope char_scope.

(** ** Python strings *)

(** A [str] is a sequence of characters.  The model covers the 8-bit
    characters of [ascii]; whitespace and case mapping are those Python
    applies to the ASCII range. *)
Abbreviation str := (list ascii).

Definition lit (s : string) : str := String.list_ascii_of_string s.

Module PyStr.

Definition nl : ascii := "010".

(** [str.isspace] on one character: TAB, LF, VT, FF, CR, the four
    information separators FS, GS, RS, US, and the space. *)
Definition is_space (c : ascii) : bool :=
  match c with
  | "009" | "010" | "011" | "012" | "013"
  | "028" | "029" | "030" | "031" | " " => true
  | _ => false
  end.

(** [s.startswith(prefix)] *)
Fixpoint startswith (s prefix : str) {struct prefix} : bool :=
  match prefix with
  | [] => true
  | p :: prefix' =>
      match s with
      | [] => false
      | c :: s' => Ascii.eqb c p && startswith s' prefix'
      end
  end.

(** The first occurrence of [sep] in [s], scanning from the left: the
    text before it and the text after it.  ([sep] is never empty in
    this program; Python rejects an empty separator.) *)
Fixpoint partition (sep s : str) : option (str * str) :=
  if startswith s sep then Some ([], drop (length sep) s)
  else match s with
       | [] => None
       | c :: s' =>
           match partition sep s' with
           | Some (a, b) => Some (c :: a, b)
           | None => None
           end
       end.

(** [sub in s] *)
Definition contains (sub s : str) : bool :=
  match partition sub s with Some _ => true | None => false end.

(** [s.split(sep, maxsplit)]: at most [maxsplit] cuts, left to right,
    at non-overlapping occurrences of [sep]. *)
Fixpoint split_n (sep : str) (maxsplit : nat) (s : str) : list str :=
  match maxsplit with
  | 0 => [s]
  | S m =>
      match partition sep s with
      | None => [s]
      | Some (a, b) => a :: split_n sep m b
      end
  end.

(** [s.split(sep)]: no limit on the number of cuts.  A cut consumes at
    least one character, so [length s] cuts are never exhausted. *)
Definition split (sep s : str) : list str := split_n sep (length s) s.

(** [s.count(sep)]: the number of non-overlapping occurrences. *)
Fixpoint count_n (fuel : nat) (sep s : str) : nat :=
  match fuel with
  | 0 => 0
  | S f =>
      match partition sep s with
      | None => 0
      | Some (_, b) => S (count_n f sep b)
      end
  end.

Definition count (sep s : str) : nat := count_n (length s) sep s.

(** [s.lstrip()], [s.rstrip()], [s.strip()] *)
Fixpoint lstrip (s : str) : str :=
  match s with
  | c :: s' => if is_space c then lstrip s' else s
  | [] => []
  end.

Definition rstrip (s : str) : str := rev (lstrip (rev s)).

Definition strip (s : str) : str := rstrip (lstrip s).

(** [s.lower()] *)
Definition lower_char (c : ascii) : ascii :=
  let n := nat_of_ascii c in
  if (65 <=? n)%nat && (n <=? 90)%nat then ascii_of_nat (n + 32) else c.

Definition lower (s : str) : str := map lower_char s.

(** [sep.join(parts)] *)
Fixpoint join (sep : str) (parts : list str) : str :=
  match parts with
  | [] => []
  | [p] => p
  | p :: ps => p ++ sep ++ join sep ps
  end.

(** [str(n)] for a non-negative integer. *)
Definition of_nat (n : nat) : str :=
  lit (NilZero.string_of_uint (Nat.to_uint n)).

End PyStr.

(** ** src/loader.py *)

Module Loader.
Import PyStr.

(** [Document] of langchain: page content and a metadata dictionary. *)
Record Document : Type := mkDocument {
  page_content : str;
  metadata : gmap str str
}.

(** The [for line in header.split('\n')] loop of [parse_metadata].
    Under [':' in line] the split at the first colon has exactly two
    parts, so the tuple assignment always succeeds. *)
Definition header_loop (lines : list str) (metadata : gmap str str)
  : gmap str str :=
  fold_left
    (fun metadata line =>
       if contains (lit ":") line then
         match split_n (lit ":") 1 line with
         | [key; value] => <[lower (strip key) := strip value]> metadata
         | _ => metadata
         end
       else metadata)
    lines metadata.

Definition parse_metadata (content : str) : gmap str str * str :=
  let metadata : gmap str str := ∅ in
  if startswith content (lit "---") then
    let parts := split_n (lit "---") 2 content in
    if (3 <=? length parts)%nat then
      let header := strip (nth 1 parts []) in
      let metadata := header_loop (split [nl] header) metadata in
      (metadata, strip (nth 2 parts []))
    else (metadata, content)
  else (metadata, content).

(** [create_chunks] hands the documents to langchain's
    [RecursiveCharacterTextSplitter], a third-party class: its
    [split_documents] is a parameter here, applied to the chunk size, the
    overlap and the separator list the source passes. *)
Definition separators : list str :=
  [lit "

"; [nl]; lit ". "; lit " "; []].

Definition create_chunks
    (split_documents : nat -> nat -> list str -> list Document -> list Document)
    (documents : list Document) (chunk_size chunk_overlap : nat)
  : list Document :=
  match documents with
  | [] => []
  | _ :: _ => split_documents chunk_size chunk_overlap separators documents
  end.

End Loader.

(** ** The outside world and the monad of effects *)

Module Effects.
Import Loader.

(** Exceptions the pipeline raises.  [CorruptIndexError] is raised only
    by the modelled index library, on an unreadable saved index. *)
Inductive Exc : Type :=
  | ValueError (msg : str)
  | FileNotFoundError (msg : str)
  | CorruptIndexError (msg : str)
  | UpstreamGatewayError (msg : str)
  | AttributeError (msg : str).

(** What leaves the process.  Building a client object is recorded, but
    it is not a call to a gateway: nothing is embedded or generated. *)
Inductive Event : Type :=
  | ClientCreated (service : str)
  | EmbedDocuments (texts : list str)
  | EmbedQuery (text : str)
  | Generate (prompt : str).

Definition is_gateway_call (e : Event) : bool :=
  match e with
  | ClientCreated _ => false
  | EmbedDocuments _ | EmbedQuery _ | Generate _ => true
  end.

Section WithVec.
(** [Vec] is the type of embeddings (vectors of floating-point
    numbers in the program; kept abstract here). *)
Context {Vec : Type}.

(** A saved index directory: the index blob and the metadata blob. *)
Record IndexDir : Type := mkIndexDir {
  index_faiss : option (list Vec);
  index_pkl : option (list Document)
}.

Record World : Type := mkWorld {
  trace : list Event;
  fs : gmap str IndexDir
}.

Definition M (A : Type) : Type := World -> World * (Exc + A).

Definition ret {A} (x : A) : M A := fun w => (w, inr x).

Definition bind {A B} (c : M A) (k : A -> M B) : M B :=
  fun w =>
    match c w with
    | (w', inl e) => (w', inl e)
    | (w', inr x) => k x w'
    end.

Definition raise {A} (e : Exc) : M A := fun w => (w, inl e).

Definition emit (e : Event) : M unit :=
  fun w => (mkWorld (trace w ++ [e]) (fs w), inr tt).

Definition read_dir (path : str) : M (option IndexDir) :=
  fun w => (w, inr (fs w !! path)).

Definition write_dir (path : str) (d : IndexDir) : M unit :=
  fun w => (mkWorld (trace w) (<[path := d]> (fs w)), inr tt).

Definition gateway_calls (w : World) : list Event :=
  filter (fun e => is_gateway_call e = true) (trace w).
End WithVec.

Arguments IndexDir : clear implicits.
Arguments World : clear implicits.
Arguments M : clear implicits.

Declare Scope py_scope.
Delimit Scope py_scope with py.
Notation "'do' x <- c ;; k" := (bind c (fun x => k))
  (at level 10, x name, c at level 99, k at level 200) : py_scope.
Notation "'run' c ;; k" := (bind c (fun _ => k))
  (at level 10, c at level 99, k at level 200) : py_scope.

End Effects.

(** ** src/embeddings.py and src/vectorstore.py *)

Module VectorStore.
Import PyStr Loader Effects.
Local Open Scope py_scope.

Section WithGateway.
(** Embeddings are [Vec]s, distances between them are [D]s compared
    with [leb]; [titan_embed] is what the embedding provider computes
    (an opaque function from text to vector). *)
Context {Vec D : Type}.
Variable dist : Vec -> Vec -> D.
Variable leb : D -> D -> bool.
Variable titan_embed : str -> Vec.

Abbreviation M := (Effects.M Vec).

(** [BedrockEmbeddings]: a handle on an embedding model. *)
Record Embeddings : Type := mkEmbeddings {
  emb_model_id : str;
  embed : str -> Vec
}.

(** src/embeddings.py *)
Definition create_embeddings : M Embeddings :=
  run emit (ClientCreated (lit "bedrock-runtime")) ;;
  ret (mkEmbeddings (lit "amazon.titan-embed-text-v2:0") titan_embed).

(** *** The index library *)

(** Modelled from the spec: langchain's [FAISS] class, which is not part
    of the sources.  The index holds the (Embedding, Chunk) pairs in
    insertion order, the position of a pair being its stable internal
    identifier, together with the gateway used for queries. *)
Record FAISS : Type := mkFAISS {
  embedding_function : Embeddings;
  entries : list (Vec * Document)
}.

(** Modelled from the spec: the index size is the number of chunks
    indexed. *)
Definition ntotal (vs : FAISS) : nat := length (entries vs).

(** Modelled from the spec: [FAISS.from_documents], one embedding per
    chunk, order-preserving. *)
Definition from_documents (chunks : list Document) (embeddings : Embeddings)
  : M FAISS :=
  run emit (EmbedDocuments (map page_content chunks)) ;;
  ret (mkFAISS embeddings
         (map (fun c => (embed embeddings (page_content c), c)) chunks)).

(** Modelled from the spec: an indexed entry with its stable identifier
    and its distance to the query embedding. *)
Record Hit : Type := mkHit {
  hit_id : nat;
  hit_score : D;
  hit_doc : Document
}.

(** Modelled from the spec: the distance from the query embedding to
    every indexed embedding. *)
Definition scored (qv : Vec) (es : list (Vec * Document)) : list Hit :=
  imap (fun i e => mkHit i (dist qv e.1) e.2) es.

(** Modelled from the spec: the ordering of the entries, ascending by
    distance; an entry goes in front of the first one that is not closer
    than it, so earlier entries stay in front of later ones at the same
    distance. *)
Fixpoint insert_hit (h : Hit) (l : list Hit) : list Hit :=
  match l with
  | [] => [h]
  | h' :: l' =>
      if leb (hit_score h) (hit_score h') then h :: l
      else h' :: insert_hit h l'
  end.

(** Modelled from the spec: all entries, most similar first. *)
Definition rank (hits : list Hit) : list Hit := foldr insert_hit [] hits.

(** Modelled from the spec: the query is embedded, its distance to every
    indexed embedding is computed, and the [k] closest chunks are
    returned, ascending by distance, ties in insertion order; all of them
    when the index holds fewer than [k]. *)
Definition nearest (vs : FAISS) (query : str) (k : nat) : list Hit :=
  take k (rank (scored (embed (embedding_function vs) query) (entries vs))).

(** Modelled from the spec: [FAISS.similarity_search_with_score], one
    call to the embedding gateway for the query. *)
Definition faiss_similarity_search_with_score
    (vs : FAISS) (query : str) (k : nat) : M (list (Document * D)) :=
  run emit (EmbedQuery query) ;;
  ret (map (fun h => (hit_doc h, hit_score h)) (nearest vs query k)).

(** Modelled from the spec: [FAISS.similarity_search], the chunks of the
    scored search. *)
Definition faiss_similarity_search (vs : FAISS) (query : str) (k : nat)
  : M (list Document) :=
  do docs_and_scores <- faiss_similarity_search_with_score vs query k ;;
  ret (map fst docs_and_scores).

(** Modelled from the spec: [save_local] writes the embeddings and the
    chunks, in order, as the index blob and the metadata blob of the
    directory [path]. *)
Definition faiss_save_local (vs : FAISS) (path : str) : M unit :=
  write_dir path
    (mkIndexDir (Some (entries vs).*1) (Some (entries vs).*2)).

(** Modelled from the spec: [load_local] needs both blobs, present and
    of the same size, and rebuilds the entries without embedding
    anything. *)
Definition faiss_load_local (path : str) (embeddings : Embeddings) : M FAISS :=
  do d <- read_dir path ;;
  match d with
  | Some (mkIndexDir (Some vecs) (Some docs)) =>
      if decide (length vecs = length docs)
      then ret (mkFAISS embeddings (zip vecs docs))
      else raise (CorruptIndexError (lit "index and metadata differ in size"))
  | _ => raise (CorruptIndexError (lit "index files missing"))
  end.

(** What [src/vectorstore.py] and [src/rag.py] ask of a vector store
    object (the tests pass mock objects with these methods). *)
Class VectorStoreLike (VS : Type) : Type := {
  similarity_search : VS -> str -> nat -> M (list Document);
  similarity_search_with_score : VS -> str -> nat -> M (list (Document * D));
  save_local : VS -> str -> M unit
}.

#[export] Instance FAISS_store : VectorStoreLike FAISS := {
  similarity_search := faiss_similarity_search;
  similarity_search_with_score := faiss_similarity_search_with_score;
  save_local := faiss_save_local
}.

(** *** src/vectorstore.py *)

Definition create_vector_store
    (chunks : list Document) (embeddings : option Embeddings) : M FAISS :=
  match chunks with
  | [] => raise (ValueError (lit "Cannot create vector store from empty chunks list"))
  | _ :: _ =>
      do embeddings <- match embeddings with
                       | None => create_embeddings
                       | Some e => ret e
                       end ;;
      do vectorstore <- from_documents chunks embeddings ;;
      ret vectorstore
  end.

Definition save_vector_store `{VectorStoreLike VS}
    (vectorstore : option VS) (path : str) : M unit :=
  match vectorstore with
  | None => raise (ValueError (lit "Cannot save None vectorstore"))
  | Some vs => save_local vs path
  end.

Definition load_vector_store (path : str) (embeddings : option Embeddings)
  : M FAISS :=
  do d <- read_dir path ;;
  match d with
  | None =>
      raise (FileNotFoundError
               (lit "Vector store not found at '" ++ path ++
                lit "'. Create one first with create_vector_store()."))
  | Some _ =>
      do embeddings <- match embeddings with
                       | None => create_embeddings
                       | Some e => ret e
                       end ;;
      do vectorstore <- faiss_load_local path embeddings ;;
      ret vectorstore
  end.

Definition search `{VectorStoreLike VS}
    (vectorstore : option VS) (query : str) (k : nat) : M (list Document) :=
  match vectorstore with
  | None => raise (ValueError (lit "Vectorstore is None"))
  | Some vs =>
      do results <- similarity_search vs query k ;;
      ret results
  end.

Definition search_with_scores `{VectorStoreLike VS}
    (vectorstore : option VS) (query : str) (k : nat)
  : M (list (Document * D)) :=
  match vectorstore with
  | None => raise (ValueError (lit "Vectorstore is None"))
  | Some vs =>
      do results <- similarity_search_with_score vs query k ;;
      ret results
  end.

End WithGateway.

Arguments Embeddings : clear implicits.
Arguments FAISS : clear implicits.

End VectorStore.

(** ** src/rag.py *)

Module Rag.
Import PyStr Loader Effects VectorStore.
Local Open Scope py_scope.

(** [ChatBedrock]: a handle on a text-generation model.  [complete] is
    what the provider answers to a prompt, or the error it fails with. *)
Record ChatBedrock : Type := mkChatBedrock {
  model_id : str;
  model_kwargs : list (str * str);
  complete : str -> Exc + str
}.

(** One entry of the [sources] list, a dict with these three keys. *)
Record SourceInfo : Type := mkSourceInfo {
  file : str;
  author : str;
  topic : str
}.

#[export] Instance SourceInfo_eq_dec : EqDecision SourceInfo.
Proof. solve_decision. Defined.

(** The dict returned by [ask]. *)
Record RetrievalResult : Type := mkRetrievalResult {
  question : str;
  answer : str;
  sources : list SourceInfo;
  num_chunks_used : nat
}.

Record KnowledgeBaseRAG (VS : Type) {Vec : Type} : Type := mkKnowledgeBaseRAG {
  documents : list Document;
  chunks : list Document;
  vectorstore : option VS;
  embeddings : option (Embeddings Vec);
  llm : option ChatBedrock
}.

Arguments mkKnowledgeBaseRAG {VS Vec}.
Arguments documents {VS Vec}.
Arguments chunks {VS Vec}.
Arguments vectorstore {VS Vec}.
Arguments embeddings {VS Vec}.
Arguments llm {VS Vec}.

Section WithGateways.
Context {Vec D : Type}.
Variable dist : Vec -> Vec -> D.
Variable leb : D -> D -> bool.
Variable titan_embed : str -> Vec.
(** What the generation provider answers for the Nova Lite model. *)
Variable nova_lite : str -> Exc + str.

Abbreviation M := (Effects.M Vec).
Abbreviation KB VS := (@KnowledgeBaseRAG VS Vec).

(** [__init__] *)
Definition __init__ {VS} : KB VS := mkKnowledgeBaseRAG [] [] None None None.

(** [_init_llm]: builds the client and the model handle on first use. *)
Definition _init_llm {VS} (self : KB VS) : M (KB VS) :=
  match llm self with
  | None =>
      run emit (ClientCreated (lit "bedrock-runtime")) ;;
      ret (mkKnowledgeBaseRAG (documents self) (chunks self)
             (vectorstore self) (embeddings self)
             (Some (mkChatBedrock (lit "us.amazon.nova-lite-v1:0")
                      [(lit "max_tokens_to_sample", lit "1500");
                       (lit "temperature", lit "0.7")]
                      nova_lite)))
  | Some _ => ret self
  end.

(** [index] *)
Definition index (self : KB (FAISS Vec)) : M (KB (FAISS Vec) * nat) :=
  match chunks self with
  | [] => ret (self, 0)
  | _ :: _ =>
      do embeddings <- create_embeddings titan_embed ;;
      do vectorstore <- create_vector_store titan_embed (chunks self) (Some embeddings) ;;
      ret (mkKnowledgeBaseRAG (documents self) (chunks self)
             (Some vectorstore) (Some embeddings) (llm self),
           ntotal vectorstore)
  end.

(** [save] *)
Definition save (self : KB (FAISS Vec)) (path : str) : M unit :=
  match vectorstore self with
  | Some _ => save_vector_store (H := FAISS_store dist leb) (vectorstore self) path
  | None => ret tt
  end.

(** [load_index] *)
Definition load_index (self : KB (FAISS Vec)) (path : str) : M (KB (FAISS Vec)) :=
  do embeddings <- create_embeddings titan_embed ;;
  do vectorstore <- load_vector_store titan_embed path (Some embeddings) ;;
  ret (mkKnowledgeBaseRAG (documents self) (chunks self)
         (Some vectorstore) (Some embeddings) (llm self)).

(** [self.llm.invoke(prompt).content] *)
Definition invoke (model : ChatBedrock) (prompt : str) : M str :=
  run emit (Generate prompt) ;;
  match complete model prompt with
  | inl e => raise e
  | inr content => ret content
  end.

(** [doc.metadata.get(key, 'Unknown')] *)
Definition get_or_unknown (doc : Document) (key : string) : str :=
  default (lit "Unknown") (metadata doc !! lit key).

(** One element of [context_parts]; [i] counts from 1. *)
Definition context_part (i : nat) (doc : Document) : str :=
  let source := get_or_unknown doc "source" in
  let author := get_or_unknown doc "author" in
  lit "[Source " ++ of_nat i ++ lit ": " ++ source ++ lit " by " ++ author
    ++ lit "]" ++ [nl] ++ page_content doc.

Definition build_context (relevant_docs : list Document) : str :=
  join (lit "

") (imap (fun i doc => context_part (S i) doc) relevant_docs).

Definition build_prompt (context question : str) : str :=
  lit "Based on the following context from a knowledge base, please answer the question.
Only use information from the context provided. If the context doesn't contain enough information
to fully answer the question, say so clearly.

Context:
" ++ context ++ lit "

Question: " ++ question ++ lit "

Answer: Provide a clear, comprehensive answer based on the context above. Include specific details
and cite which sources you're drawing from when relevant.".

Definition source_info (doc : Document) : SourceInfo :=
  mkSourceInfo (get_or_unknown doc "source")
               (get_or_unknown doc "author")
               (get_or_unknown doc "topic").

(** The loop of step 5: a record is appended unless the list already
    holds an equal one. *)
Definition extract_sources (relevant_docs : list Document) : list SourceInfo :=
  fold_left
    (fun sources doc =>
       let source_info := source_info doc in
       if decide (source_info ∈ sources) then sources
       else sources ++ [source_info])
    relevant_docs [].

(** [ask].  [show_context] only selects what is printed. *)
Definition ask `{VectorStoreLike (Vec := Vec) (D := D) VS}
    (self : KB VS) (question : str) (k : nat) (show_context : bool)
  : M (KB VS * RetrievalResult) :=
  do self <- _init_llm self ;;
  match vectorstore self with
  | None =>
      ret (self,
           mkRetrievalResult question
             (lit "❌ Knowledge base not initialized. Load documents and create index first.")
             [] 0)
  | Some _ =>
      do relevant_docs <- search (vectorstore self) question k ;;
      match relevant_docs with
      | [] =>
          ret (self,
               mkRetrievalResult question
                 (lit "No relevant information found in the knowledge base for this question.")
                 [] 0)
      | _ :: _ =>
          let context := build_context relevant_docs in
          let prompt := build_prompt context question in
          do answer <- match llm self with
                       | Some model => invoke model prompt
                       | None => raise (AttributeError (lit "'NoneType' object has no attribute 'invoke'"))
                       end ;;
          let sources := extract_sources relevant_docs in
          ret (self,
               mkRetrievalResult question answer sources (length relevant_docs))
      end
  end.

End WithGateways.
End Rag.

(** ** src/loader.py: loading and statistics *)

Module Corpus.
Import PyStr Loader.

(** A file found by [Path(directory).glob("*.txt")]: its name, its path
    as a string, and the text [TextLoader] reads from it, if the read
    succeeds. *)
Record TextFile : Type := mkTextFile {
  file_name : str;
  file_path : str;
  file_text : option str
}.

(** [load_knowledge_base].  [disk] gives, for every directory that exists,
    the files the glob finds there, in the order it yields them.  A file
    whose read raises is reported and skipped. *)
Definition load_knowledge_base
    (disk : gmap str (list TextFile)) (directory : str) : list Document :=
  match disk !! directory with
  | None => []
  | Some txt_files =>
      fold_left
        (fun documents file =>
           match file_text file with
           | None => documents
           | Some text =>
               let '(metadata, content) := parse_metadata text in
               let metadata := <[lit "source" := file_name file]> metadata in
               let metadata := <[lit "filepath" := file_path file]> metadata in
               documents ++ [mkDocument content metadata]
           end)
        txt_files []
  end.

(** [s.split()]: the maximal runs of characters that are not whitespace.
    [cur] holds the characters of the current run, last one first. *)
Fixpoint split_go (cur s : str) : list str :=
  match s with
  | [] => match cur with [] => [] | _ :: _ => [rev cur] end
  | c :: s' =>
      if is_space c
      then match cur with [] => [] | _ :: _ => [rev cur] end ++ split_go [] s'
      else split_go (c :: cur) s'
  end.

Definition split_whitespace (s : str) : list str := split_go [] s.

(** The order of [str] values: character by character, a proper prefix
    first. *)
Fixpoint str_leb (s t : str) : bool :=
  match s, t with
  | [], _ => true
  | _ :: _, [] => false
  | c :: s', d :: t' =>
      match N.compare (N_of_ascii c) (N_of_ascii d) with
      | Lt => true
      | Eq => str_leb s' t'
      | Gt => false
      end
  end.

Definition str_le (s t : str) : Prop := str_leb s t = true.

#[export] Instance str_le_dec : RelDecision str_le.
Proof. intros s t. unfold str_le. apply _. Defined.

(** [sorted(list(a_set))] *)
Definition sorted (values : gset str) : list str :=
  merge_sort str_le (elements values).

(** A value of the statistics dictionary: a number or a list of strings. *)
Inductive StatValue : Type :=
  | SInt (n : nat)
  | SList (l : list str).

(** The loop of [get_document_stats]. *)
Definition stats_loop (documents : list Document)
  : gset str * gset str * nat * nat :=
  fold_left
    (fun '(authors, topics, total_length, total_words) doc =>
       let author := default (lit "Unknown") (metadata doc !! lit "author") in
       let topic := default (lit "Unknown") (metadata doc !! lit "topic") in
       (authors ∪ {[author]}, topics ∪ {[topic]},
        total_length + length (page_content doc),
        total_words + length (split_whitespace (page_content doc))))
    documents (∅, ∅, 0, 0).

Definition get_document_stats (documents : list Document)
  : gmap str StatValue :=
  match documents with
  | [] =>
      <[lit "total_documents" := SInt 0]>
      (<[lit "unique_authors" := SInt 0]>
      (<[lit "authors" := SList []]>
      (<[lit "topics" := SList []]>
      (<[lit "avg_length" := SInt 0]>
      (<[lit "total_words" := SInt 0]> ∅)))))
  | _ :: _ =>
      let '(authors, topics, total_length, total_words) := stats_loop documents in
      <[lit "total_documents" := SInt (length documents)]>
      (<[lit "unique_authors" := SInt (size authors)]>
      (<[lit "authors" := SList (sorted authors)]>
      (<[lit "topics" := SList (sorted topics)]>
      (<[lit "avg_length" := SInt (total_length / length documents)]>
      (<[lit "total_words" := SInt total_words]>
      (<[lit "avg_words_per_doc" := SInt (total_words / length documents)]> ∅))))))
  end.

End Corpus.

(** ** src/rag.py: building the knowledge base, the shells; main.py *)

Module Shell.
Import PyStr Loader Effects VectorStore Rag Corpus.

(** How a run can fail: an exception of [Exc], a missing dictionary key,
    a value of the wrong type, or the end of standard input in [input]. *)
Inductive Failure : Type :=
  | Raised (e : Exc)
  | KeyError (key : str)
  | TypeError
  | EOFError.

(** [stats[key]] used as a number, and as a list. *)
Definition stat_int (stats : gmap str StatValue) (key : string) : Failure + nat :=
  match stats !! lit key with
  | Some (SInt n) => inr n
  | Some (SList _) => inl TypeError
  | None => inl (KeyError (lit key))
  end.

Definition stat_list (stats : gmap str StatValue) (key : string)
  : Failure + list str :=
  match stats !! lit key with
  | Some (SList l) => inr l
  | Some (SInt _) => inl TypeError
  | None => inl (KeyError (lit key))
  end.

Definition exit_words : list str := [lit "quit"; lit "exit"; lit "q"; []].

Definition demo_questions : list str :=
  [lit "What is Python and what are its key features?";
   lit "What AWS services are fundamental for cloud computing?";
   lit "Explain continuous integration and deployment";
   lit "What are the different types of software tests?"].

Section WithEnvironment.
Context {Vec D : Type}.
Variable dist : Vec -> Vec -> D.
Variable leb : D -> D -> bool.
Variable titan_embed : str -> Vec.
Variable nova_lite : str -> Exc + str.
(** The documents on disk and langchain's text splitter. *)
Variable disk : gmap str (list TextFile).
Variable split_documents : nat -> nat -> list str -> list Document -> list Document.

Abbreviation KB VS := (@KnowledgeBaseRAG VS Vec).

(** [load].  The statistics are read only to be printed; reading a key
    that is not there, or of the wrong type, fails. *)
Definition load {VS} (self : KB VS) (directory : str) : Failure + (KB VS * nat) :=
  let documents := load_knowledge_base disk directory in
  let self := mkKnowledgeBaseRAG documents (chunks self) (vectorstore self)
                (embeddings self) (llm self) in
  match documents with
  | [] => inr (self, length documents)
  | _ :: _ =>
      let stats := get_document_stats documents in
      match stat_int stats "total_documents" with
      | inl f => inl f
      | inr _ =>
      match stat_int stats "total_words" with
      | inl f => inl f
      | inr _ =>
      match stat_int stats "avg_words_per_doc" with
      | inl f => inl f
      | inr _ =>
      match stat_list stats "authors" with
      | inl f => inl f
      | inr _ =>
      match stat_list stats "topics" with
      | inl f => inl f
      | inr _ => inr (self, length documents)
      end end end end end
  end.

(** [process] *)
Definition process {VS} (self : KB VS) (chunk_size chunk_overlap : nat)
  : KB VS * nat :=
  match documents self with
  | [] => (self, 0)
  | _ :: _ =>
      let chunks := create_chunks split_documents (documents self)
                      chunk_size chunk_overlap in
      (mkKnowledgeBaseRAG (documents self) chunks (vectorstore self)
         (embeddings self) (llm self),
       length chunks)
  end.

(** An action of the effect monad as a step of a run. *)
Definition lift {A} (c : Effects.M Vec A) (w : World Vec)
  : World Vec * (Failure + A) :=
  match c w with
  | (w', inl e) => (w', inl (Raised e))
  | (w', inr x) => (w', inr x)
  end.

(** [build_knowledge_base] *)
Definition build_knowledge_base (load_existing save_index : bool)
    (w : World Vec) : World Vec * (Failure + KB (FAISS Vec)) :=
  let kb : KB (FAISS Vec) := __init__ in
  if load_existing && bool_decide (is_Some (fs w !! lit "vector_index")) then
    lift (load_index titan_embed kb (lit "vector_index")) w
  else
    match load kb (lit "knowledge_base") with
    | inl f => (w, inl f)
    | inr (kb, _) =>
        let '(kb, _) := process kb 500 50 in
        match lift (index titan_embed kb) w with
        | (w1, inl f) => (w1, inl f)
        | (w1, inr (kb, _)) =>
            if save_index then
              match lift (save dist leb kb (lit "vector_index")) w1 with
              | (w2, inl f) => (w2, inl f)
              | (w2, inr _) => (w2, inr kb)
              end
            else (w1, inr kb)
        end
    end.

(** [interactive].  [stdin] holds the lines still to be read; the result
    gives the lines left unread.  The loop ends at an exit word, at a
    failure of [ask], or when [input] finds no line. *)
Fixpoint interactive `{VectorStoreLike (Vec := Vec) (D := D) VS}
    (self : KB VS) (stdin : list str) (w : World Vec)
  : list str * World Vec * (Failure + KB VS) :=
  match stdin with
  | [] => ([], w, inl EOFError)
  | line :: rest =>
      let question := strip line in
      if decide (lower question ∈ exit_words) then (rest, w, inr self)
      else
        match ask nova_lite self question 3 false w with
        | (w', inl e) => (rest, w', inl (Raised e))
        | (w', inr (self, _)) => interactive self rest w'
        end
  end.

(** The demo loop of [main]: every question is asked, and between two
    questions a line is read. *)
Fixpoint demo `{VectorStoreLike (Vec := Vec) (D := D) VS}
    (self : KB VS) (questions : list str) (stdin : list str) (w : World Vec)
  : list str * World Vec * (Failure + KB VS) :=
  match questions with
  | [] => (stdin, w, inr self)
  | question :: questions' =>
      match ask nova_lite self question 3 false w with
      | (w', inl e) => (stdin, w', inl (Raised e))
      | (w', inr (self, _)) =>
          match questions' with
          | [] => (stdin, w', inr self)
          | _ :: _ =>
              match stdin with
              | [] => ([], w', inl EOFError)
              | _ :: rest => demo self questions' rest w'
              end
          end
      end
  end.

(** [main] of main.py.  [argv] is [sys.argv]. *)
Definition main (argv stdin : list str) (w : World Vec)
  : list str * World Vec * (Failure + unit) :=
  let load_existing := bool_decide (lit "--load" ∈ argv) in
  let interactive_mode :=
    bool_decide (lit "--interactive" ∈ argv) || bool_decide (lit "-i" ∈ argv) in
  let help_requested :=
    bool_decide (lit "--help" ∈ argv) || bool_decide (lit "-h" ∈ argv) in
  if help_requested then (stdin, w, inr tt)
  else
    match build_knowledge_base load_existing true w with
    | (w1, inl f) => (stdin, w1, inl f)
    | (w1, inr kb) =>
        let '(stdin', w2, r) :=
          if interactive_mode
          then interactive (H := FAISS_store dist leb) kb stdin w1
          else demo (H := FAISS_store dist leb) kb demo_questions stdin w1 in
        (stdin', w2, match r with inl f => inl f | inr _ => inr tt end)
    end.

End WithEnvironment.
End Shell.

(** ** Notions used to state the properties *)

Module Notions.
Import PyStr Loader Effects VectorStore Rag.

(** The lines of a text, cut at every newline (what [s.split('\n')]
    computes, by recursion on the text). *)
Fixpoint lines (s : str) : list str :=
  match s with
  | [] => [[]]
  | c :: s' =>
      if Ascii.eqb c nl then [] :: lines s'
      else match lines s' with
           | l :: ls => (c :: l) :: ls
           | [] => [[c]]
           end
  end.


(** The field a header line [key: value] declares: the key is the text
    before the first colon, trimmed and lowercased, the value the text
    after it, trimmed.  A line without a colon declares nothing. *)
Definition field_of_line (line : str) : option (str * str) :=
  match partition (lit ":") line with
  | Some (key, value) => Some (lower (strip key), strip value)
  | None => None
  end.



(** The lines of a text that consist of exactly three hyphens. *)
Definition delimiter_lines (content : str) : list str :=
  filter (fun l => l = lit "---") (split [nl] content).

(** A header was recognized: the result is not the no-header result. *)
Definition header_recognized (content : str) : Prop :=
  parse_metadata content <> (∅, content).

(** The reading under which only whole lines of exactly three hyphens
    delimit the header. *)
Definition delimited_by_lines (content : str) : Prop :=
  header_recognized content -> 2 <= length (delimiter_lines content).

(** The first occurrence of each element, in order. *)
Fixpoint first_occurrences `{EqDecision A} (l : list A) : list A :=
  match l with
  | [] => []
  | x :: l' => x :: filter (fun y => y <> x) (first_occurrences l')
  end.

(** The reading under which a missing field shows up as "Unknown" in
    the context block of the chunk. *)
Definition unknown_in_block (doc : Document) (key : string) : Prop :=
  metadata doc !! lit key = None ->
  contains (lit "Unknown") (context_part 1 doc) = true.

(** [a] is ranked before [b]: it is at most as far from the query, and
    at equal distance it was inserted first. *)
Definition before {D} (leb : D -> D -> bool) (a b : @Hit D) : Prop :=
  leb (hit_score a) (hit_score b) = true /\
  (leb (hit_score b) (hit_score a) = true -> hit_id a < hit_id b).

Definition empty_world {Vec} : World Vec := mkWorld [] ∅.

End Notions.

(** ** A small instance, for evaluation *)

Module Sample.
Import PyStr Loader Effects VectorStore Rag Notions.
Local Open Scope Z_scope.

(** One-dimensional embeddings: the length of the text; the distance is
    the absolute difference. *)
Definition sample_dist (a b : Z) : Z := Z.abs (a - b).
Definition sample_embed (text : str) : Z := Z.of_nat (length text).
Definition sample_llm (prompt : str) : Exc + str := inr (lit "Test answer").

Definition meta (source author topic : string) : gmap str str :=
  <[lit "source" := lit source]>
    (<[lit "author" := lit author]> (<[lit "topic" := lit topic]> ∅)).

Definition chunk_a1 : Document := mkDocument (lit "Content 1") (meta "a.txt" "Ann" "Testing").
Definition chunk_a2 : Document := mkDocument (lit "Content 22") (meta "a.txt" "Ann" "Testing").
Definition chunk_b : Document := mkDocument (lit "Content 333") (meta "b.txt" "Bob" "Python").

(** A chunk whose metadata has no [topic]. *)
Definition chunk_no_topic : Document :=
  mkDocument (lit "Content")
    (<[lit "source" := lit "a.txt"]> (<[lit "author" := lit "Ann"]> ∅)).

(** Two chunks with no metadata at all. *)
Definition chunk_bare : Document := mkDocument (lit "Content") ∅.
Definition chunk_bare' : Document := mkDocument (lit "More content") ∅.

Definition sample_gateway : Embeddings Z :=
  mkEmbeddings (lit "amazon.titan-embed-text-v2:0") sample_embed.

Definition sample_index : FAISS Z :=
  mkFAISS sample_gateway
    (map (fun c => (sample_embed (page_content c), c)) [chunk_a1; chunk_a2; chunk_b]).

Definition sample_kb : KnowledgeBaseRAG (FAISS Z) :=
  mkKnowledgeBaseRAG [] [chunk_a1; chunk_a2; chunk_b] (Some sample_index)
    (Some sample_gateway) None.

Definition bare_kb : KnowledgeBaseRAG (FAISS Z) :=
  mkKnowledgeBaseRAG [] [chunk_bare; chunk_bare']
    (Some (mkFAISS sample_gateway
             (map (fun c => (sample_embed (page_content c), c))
                [chunk_bare; chunk_bare'])))
    (Some sample_gateway) None.

Definition sample_model : ChatBedrock :=
  mkChatBedrock (lit "us.amazon.nova-lite-v1:0")
    [(lit "max_tokens_to_sample", lit "1500"); (lit "temperature", lit "0.7")]
    sample_llm.

#[export] Instance sample_store : VectorStoreLike (FAISS Z) :=
  FAISS_store sample_dist Z.leb.

End Sample.

(** ** Notions and an instance for the loader and the shells *)

Module CorpusNotions.
Import PyStr Loader Effects VectorStore Rag Corpus Shell.

(** The document [load_knowledge_base] makes of a file, if it can be
    read. *)
Definition document_of_file (file : TextFile) : option Document :=
  match file_text file with
  | None => None
  | Some text =>
      Some (mkDocument (parse_metadata text).2
              (<[lit "filepath" := file_path file]>
                 (<[lit "source" := file_name file]> (parse_metadata text).1)))
  end.

Definition readable (file : TextFile) : Prop := is_Some (file_text file).

#[export] Instance readable_dec (file : TextFile) : Decision (readable file).
Proof. unfold readable. apply _. Defined.

Definition author_of (doc : Document) : str :=
  default (lit "Unknown") (metadata doc !! lit "author").

Definition topic_of (doc : Document) : str :=
  default (lit "Unknown") (metadata doc !! lit "topic").

Definition total_length (docs : list Document) : nat :=
  sum_list ((fun doc => length (page_content doc)) <$> docs).

Definition total_words (docs : list Document) : nat :=
  sum_list ((fun doc => length (split_whitespace (page_content doc))) <$> docs).

(** [l] lists the values [f] takes on [docs], each once, in ascending
    order. *)
Definition sorted_values (f : Document -> str) (docs : list Document)
    (l : list str) : Prop :=
  StronglySorted str_le l /\ NoDup l /\
  forall x, x ∈ l <-> exists doc, doc ∈ docs /\ f doc = x.

(** The six keys of every statistics dictionary. *)
Definition common_keys : gset str :=
  {[lit "total_documents"; lit "unique_authors"; lit "authors";
    lit "topics"; lit "avg_length"; lit "total_words"]}.

(** The answer of [ask] when there is no vector store. *)
Definition not_initialized (question : str) : RetrievalResult :=
  mkRetrievalResult question
    (lit "❌ Knowledge base not initialized. Load documents and create index first.")
    [] 0.


End CorpusNotions.

Module Fixtures.
Import PyStr Loader Effects VectorStore Rag Corpus Shell CorpusNotions.

(** A directory with a file whose header declares a source of its own, a
    file that cannot be read, and a file without header. *)
Definition notes : TextFile :=
  mkTextFile (lit "notes.txt") (lit "knowledge_base/notes.txt")
    (Some (lit "---
Author: Ann
Source: elsewhere
---
Some notes here")).

Definition broken : TextFile :=
  mkTextFile (lit "broken.txt") (lit "knowledge_base/broken.txt") None.

Definition plain : TextFile :=
  mkTextFile (lit "plain.txt") (lit "knowledge_base/plain.txt")
    (Some (lit "Just  two words")).

Definition sample_disk : gmap str (list TextFile) :=
  {[lit "knowledge_base" := [notes; broken; plain]]}.

Definition empty_disk : gmap str (list TextFile) := ∅.

(** A generator that fails. *)
Definition failing_llm (prompt : str) : Exc + str :=
  inl (UpstreamGatewayError (lit "timeout")).

Definition failing_model : ChatBedrock :=
  mkChatBedrock (lit "us.amazon.nova-lite-v1:0") [] failing_llm.

(** An indexed knowledge base whose generator fails. *)
Definition failing_kb : KnowledgeBaseRAG (FAISS Z) :=
  mkKnowledgeBaseRAG [] (chunks Sample.sample_kb) (Some Sample.sample_index)
    (Some Sample.sample_gateway) (Some failing_model).

(** Three documents: two with authors and topics, one with no metadata. *)
Definition shelf : list Document :=
  [Sample.chunk_b; Sample.chunk_a1; Sample.chunk_bare].

(** A splitter that gives every document back as one chunk. *)
Definition one_chunk_each
    (chunk_size chunk_overlap : nat) (separators : list str)
    (documents : list Document) : list Document := documents.

End Fixtures.

(** * Properties *)

(** Decidable facts about concrete data are settled by evaluation. *)
Ltac by_compute := apply (bool_decide_unpack _); vm_compute; exact I.

(** ** Facts about the string operations *)

Module PyStrFacts.
Import PyStr.

Lemma startswith_app (p s : str) : startswith (p ++ s) p = true.
Proof.
  induction p as [|c p IH]; simpl; [done|].
  by rewrite Ascii.eqb_refl, IH.
Qed.

Lemma startswith_inv (s p : str) :
  startswith s p = true -> s = p ++ drop (length p) s.
Proof.
  revert s; induction p as [|c p IH]; intros s H; simpl in *.
  - by rewrite drop_0.
  - destruct s as [|d s]; [done|].
    apply andb_true_iff in H as [Hc Hs].
    apply Ascii.eqb_eq in Hc as ->. simpl. f_equal. by apply IH.
Qed.

Lemma partition_Some (sep s a b : str) :
  partition sep s = Some (a, b) -> s = a ++ sep ++ b.
Proof.
  revert a; induction s as [|c s IH]; intros a; simpl.
  - destruct (startswith [] sep) eqn:E; simpl; [|done].
    intros [= <- <-]. by apply startswith_inv in E.
  - destruct (startswith (c :: s) sep) eqn:E; simpl.
    + intros [= <- <-]. by apply startswith_inv in E.
    + destruct (partition sep s) as [[a' b']|] eqn:P; [|done].
      intros [= <- <-]. simpl. f_equal. by apply IH.
Qed.

(** The cut is at the first occurrence: no other way of writing [s]
    around [sep] has a shorter left part. *)
Lemma partition_first (sep s a b a' b' : str) :
  partition sep s = Some (a, b) -> s = a' ++ sep ++ b' ->
  length a <= length a'.
Proof.
  revert a a'; induction s as [|c s IH]; intros a a'; simpl.
  - destruct (startswith [] sep); simpl; [|done]. intros [= <- <-] _. simpl. lia.
  - destruct (startswith (c :: s) sep) eqn:E; simpl.
    + intros [= <- <-] _. simpl. lia.
    + destruct (partition sep s) as [[a0 b0]|] eqn:P; [|done].
      intros [= <- <-] Hs. destruct a' as [|c' a'].
      * simpl in Hs. rewrite Hs, startswith_app in E. done.
      * simpl in Hs. injection Hs as -> Hs. simpl.
        apply le_n_S. by eapply IH.
Qed.

Lemma partition_startswith (sep s : str) :
  startswith s sep = true -> partition sep s = Some ([], drop (length sep) s).
Proof. intros H. destruct s; simpl; by rewrite H. Qed.

Lemma partition_app (sep a b : str) : is_Some (partition sep (a ++ sep ++ b)).
Proof.
  induction a as [|c a IH]; simpl.
  - rewrite partition_startswith by apply startswith_app. by eexists.
  - destruct (startswith (c :: a ++ sep ++ b) sep); [by eexists|].
    destruct IH as [[a' b'] ->]. by eexists.
Qed.

Lemma partition_None (sep s a b : str) :
  partition sep s = None -> s <> a ++ sep ++ b.
Proof.
  intros H ->. destruct (partition_app sep a b) as [? E]. congruence.
Qed.

Lemma partition_char_None (c : ascii) (s : str) :
  partition [c] s = None <-> c ∉ s.
Proof.
  induction s as [|d s IH]; simpl.
  - split; [intros _; apply not_elem_of_nil|done].
  - destruct (Ascii.eqb d c) eqn:E; simpl.
    + apply Ascii.eqb_eq in E as ->. split; [done|]. intros H.
      exfalso. apply H. left.
    + apply Ascii.eqb_neq in E.
      destruct (partition [c] s) as [[a b]|] eqn:P.
      * split; [done|]. intros H. exfalso.
        assert (c ∉ s) as H' by (intros ?; apply H; by right).
        apply IH in H'. done.
      * split; [|done]. intros _. rewrite not_elem_of_cons. split; [done|].
        by apply IH.
Qed.


Lemma contains_char (c : ascii) (s : str) :
  contains [c] s = true <-> c ∈ s.
Proof.
  unfold contains. destruct (partition [c] s) as [[a b]|] eqn:P.
  - split; [intros _|done]. apply partition_Some in P as ->.
    rewrite elem_of_app. right. left.
  - split; [done|]. intros H. by apply partition_char_None in P.
Qed.

Lemma partition_nil (sep : str) : sep <> [] -> partition sep [] = None.
Proof. by destruct sep. Qed.

Lemma partition_shorter (sep s a b : str) :
  sep <> [] -> partition sep s = Some (a, b) -> length b < length s.
Proof.
  intros Hsep P. apply partition_Some in P as ->.
  rewrite !length_app. destruct sep; [done|]. simpl. lia.
Qed.

(** The bound on the number of cuts in [split] and [count] is never
    reached: any larger bound gives the same result. *)
Lemma split_n_enough (sep s : str) (n m : nat) :
  sep <> [] -> length s <= n -> length s <= m ->
  split_n sep n s = split_n sep m s.
Proof.
  intros Hsep. revert m s; induction n as [|n IH]; intros m s Hn Hm.
  - destruct s; [|simpl in Hn; lia].
    destruct m; cbn [split_n]; [done|]. by rewrite partition_nil.
  - destruct m as [|m].
    + destruct s; [|simpl in Hm; lia]. cbn [split_n]. by rewrite partition_nil.
    + cbn [split_n]. destruct (partition sep s) as [[a b]|] eqn:P; [|done].
      apply partition_shorter in P; [|done]. f_equal. apply IH; lia.
Qed.

Lemma count_n_enough (sep s : str) (n m : nat) :
  sep <> [] -> length s <= n -> length s <= m ->
  count_n n sep s = count_n m sep s.
Proof.
  intros Hsep. revert m s; induction n as [|n IH]; intros m s Hn Hm.
  - destruct s; [|simpl in Hn; lia].
    destruct m; cbn [count_n]; [done|]. by rewrite partition_nil.
  - destruct m as [|m].
    + destruct s; [|simpl in Hm; lia]. cbn [count_n]. by rewrite partition_nil.
    + cbn [count_n]. destruct (partition sep s) as [[a b]|] eqn:P; [|done].
      apply partition_shorter in P; [|done]. f_equal. apply IH; lia.
Qed.

End PyStrFacts.

(** ** Lines, trimming and header fields *)

Module LoaderFacts.
Import PyStr Loader Notions PyStrFacts.










(** *** Trimming *)






(** *** Header fields *)

Lemma field_of_line_nil : field_of_line [] = None.
Proof. done. Qed.












(** *** The header delimiters *)






End LoaderFacts.

(** ** parse_metadata *)

Module LoaderProps.
Import PyStr Loader Notions PyStrFacts LoaderFacts.



(** C7.  Content that does not start with three hyphens, or holds fewer
    than two (non-overlapping) runs of three hyphens, comes back unchanged
    with empty metadata. *)
Theorem parse_metadata_without_header (content : str) :
  startswith content (lit "---") = false \/ count (lit "---") content < 2 ->
  parse_metadata content = (∅, content).
Proof.
  unfold parse_metadata.
  destruct (startswith content (lit "---")) eqn:E; [|done].
  intros [?|Hc]; [done|]. cbn [split_n].
  rewrite partition_startswith by done.
  destruct (partition (lit "---") (drop (length (lit "---")) content))
    as [[h r]|] eqn:P; [|done].
  exfalso. unfold count in Hc.
  pose proof (startswith_inv _ _ E) as Hcontent.
  pose proof (partition_Some _ _ _ _ P) as Hrest.
  assert (6 <= length content) as Hlen.
  { rewrite Hcontent, Hrest, !length_app. simpl. lia. }
  destruct (length content) as [|[|n]]; [lia..|].
  cbn [count_n] in Hc. rewrite partition_startswith, P in Hc by done. lia.
Qed.

Lemma parse_metadata_without_header_witness :
  parse_metadata (lit "Just plain content without any header at all.")
    = (∅, lit "Just plain content without any header at all.") /\
  parse_metadata (lit "---
Author: A") = (∅, lit "---
Author: A") /\
  parse_metadata [] = (∅, []).
Proof.
  split_and!; apply parse_metadata_without_header.
  - left. reflexivity.
  - right. vm_compute. lia.
  - left. reflexivity.
Defined.

(** C8, as the code has it.  The delimiter is the run of three hyphens
    wherever it stands: a header is recognized exactly when the content
    starts with three hyphens and holds three more after them; the header
    is the text up to the first such run, the body the trimmed text after
    it.  Otherwise the content comes back unchanged with empty metadata. *)
Theorem parse_metadata_delimiters (content : str) :
  (exists h r : str,
      content = lit "---" ++ h ++ lit "---" ++ r /\
      (forall h' r' : str,
          content = lit "---" ++ h' ++ lit "---" ++ r' -> length h <= length h') /\
      parse_metadata content = (header_loop (split [nl] (strip h)) ∅, strip r))
  \/
  ((forall h r : str, content <> lit "---" ++ h ++ lit "---" ++ r) /\
   parse_metadata content = (∅, content)).
Proof.
  unfold parse_metadata.
  destruct (startswith content (lit "---")) eqn:E.
  - pose proof (startswith_inv _ _ E) as Hcontent.
    cbn [split_n]. rewrite partition_startswith by done.
    destruct (partition (lit "---") (drop (length (lit "---")) content))
      as [[h r]|] eqn:P.
    + left. exists h, r. split_and!; [|intros h' r' H'|done].
      * rewrite Hcontent at 1. f_equal. by apply partition_Some.
      * eapply partition_first; [exact P|].
        rewrite H' at 1. by rewrite drop_app_length.
    + right. split; [|done]. intros h r H'.
      eapply partition_None; [exact P|].
      rewrite H' at 1. by rewrite drop_app_length.
  - right. split; [|done]. intros h r H'.
    by rewrite H', startswith_app in E.
Qed.

(** C8 as stated fails: three hyphens inside a line, and lines of four
    hyphens, delimit a header although the content has no line of exactly
    three hyphens. *)
Lemma hyphens_inside_a_line_delimit :
  ~ delimited_by_lines (lit "---a: b---c") /\
  ~ delimited_by_lines (lit "----
A: b
----
body").
Proof.
  split; intros H.
  - assert (header_recognized (lit "---a: b---c")) as Hr.
    { intros E. apply (f_equal snd) in E. vm_compute in E. discriminate. }
    apply H in Hr. vm_compute in Hr. lia.
  - assert (header_recognized (lit "----
A: b
----
body")) as Hr.
    { intros E. apply (f_equal snd) in E. vm_compute in E. discriminate. }
    apply H in Hr. vm_compute in Hr. lia.
Qed.

(** What the parser returns on the two contents above. *)
Example parse_metadata_inline_hyphens :
  let r := parse_metadata (lit "---a: b---c") in
  r.1 !! lit "a" = Some (lit "b") /\ size r.1 = 1 /\ r.2 = lit "c".
Proof. vm_compute. by split_and!. Qed.

Example parse_metadata_four_hyphens :
  let r := parse_metadata (lit "----
A: b
----
body") in
  r.1 !! lit "a" = Some (lit "b") /\ size r.1 = 1 /\ r.2 = lit "-
body".
Proof. vm_compute. by split_and!. Qed.

(** The example of the specification. *)
Example parse_metadata_spec_example :
  let r := parse_metadata (lit "---
Author: A
Topic: T
---
Body text") in
  r.1 !! lit "author" = Some (lit "A") /\ r.1 !! lit "topic" = Some (lit "T") /\
  size r.1 = 2 /\ r.2 = lit "Body text".
Proof. vm_compute. by split_and!. Qed.

(** A colon inside the value stays in the value; a line without a colon
    is skipped. *)
Example parse_metadata_colon_in_value :
  let r := parse_metadata (lit "---
Summary: a: b
no colon here
---
x") in
  r.1 !! lit "summary" = Some (lit "a: b") /\ size r.1 = 1 /\ r.2 = lit "x".
Proof. vm_compute. by split_and!. Qed.

(** create_chunks returns no chunk for no document; for a non-empty
    list the chunks are those of the text splitter. *)
Lemma create_chunks_empty
    (split_documents : nat -> nat -> list str -> list Document -> list Document)
    (chunk_size chunk_overlap : nat) :
  create_chunks split_documents [] chunk_size chunk_overlap = [].
Proof. reflexivity. Qed.

Lemma create_chunks_nonempty
    (split_documents : nat -> nat -> list str -> list Document -> list Document)
    (documents : list Document) (chunk_size chunk_overlap : nat) :
  documents <> [] ->
  create_chunks split_documents documents chunk_size chunk_overlap
  = split_documents chunk_size chunk_overlap separators documents.
Proof. by destruct documents. Qed.

End LoaderProps.

(** ** The vector index *)

Module VectorStoreProps.
Import PyStr Loader Effects VectorStore Notions.

Section Ranking.
Context {Vec D : Type}.
Variable dist : Vec -> Vec -> D.
Variable leb : D -> D -> bool.
Hypothesis leb_total : forall a b, leb a b = true \/ leb b a = true.
Hypothesis leb_trans :
  forall a b c, leb a b = true -> leb b c = true -> leb a c = true.

Abbreviation before := (Notions.before leb).

Lemma insert_hit_perm (h : Hit) (l : list Hit) : insert_hit leb h l ≡ₚ h :: l.
Proof.
  induction l as [|h' l IH]; simpl; [done|].
  destruct (leb (hit_score h) (hit_score h')); [done|].
  rewrite IH. apply Permutation_swap.
Qed.

Lemma rank_perm (l : list Hit) : rank leb l ≡ₚ l.
Proof.
  induction l as [|h l IH]; simpl; [done|].
  by rewrite insert_hit_perm, IH.
Qed.

Lemma insert_hit_sorted (h : Hit) (l : list Hit) :
  StronglySorted before l ->
  Forall (fun x => hit_id h < hit_id x) l ->
  StronglySorted before (insert_hit leb h l).
Proof.
  induction 1 as [|h' l Hl IH Hh']; intros Hid; simpl.
  - by repeat constructor.
  - apply Forall_cons in Hid as [Hid' Hid].
    destruct (leb (hit_score h) (hit_score h')) eqn:E.
    + constructor; [by constructor|]. constructor; [by split|].
      rewrite Forall_forall in Hh', Hid |- *. intros x Hx. split.
      * destruct (Hh' x Hx) as [Hle _]. by eapply leb_trans.
      * intros _. by apply Hid.
    + constructor; [by apply IH|].
      rewrite insert_hit_perm. constructor; [|done]. split.
      * by destruct (leb_total (hit_score h) (hit_score h')) as [H|H]; [congruence|].
      * intros H. congruence.
Qed.

Lemma rank_sorted (l : list Hit) :
  StronglySorted (fun a b : Hit => hit_id a < hit_id b) l ->
  StronglySorted before (rank leb l).
Proof.
  induction 1 as [|h l Hl IH Hh]; simpl; [constructor|].
  apply insert_hit_sorted; [done|]. by rewrite rank_perm.
Qed.

Lemma scored_from_sorted (qv : Vec) (es : list (Vec * Document)) (n : nat) :
  let hits := imap (fun i e => mkHit (n + i) (dist qv e.1) e.2) es in
  StronglySorted (fun a b : Hit => hit_id a < hit_id b) hits /\
  Forall (fun h : Hit => n <= hit_id h) hits.
Proof.
  revert n; induction es as [|e es IH]; intros n; simpl.
  - split; constructor.
  - destruct (IH (S n)) as [Hs Hn].
    assert (imap ((fun i e0 => mkHit (n + i) (dist qv e0.1) e0.2) ∘ S) es
            = imap (fun i e0 => mkHit (S n + i) (dist qv e0.1) e0.2) es) as ->.
    { apply imap_ext. intros i x _. simpl. f_equal. lia. }
    split.
    + constructor; [done|]. eapply Forall_impl; [exact Hn|].
      intros h Hh. simpl in *. lia.
    + constructor; [simpl; lia|]. eapply Forall_impl; [exact Hn|].
      intros h Hh. simpl in *. lia.
Qed.

Lemma scored_sorted (qv : Vec) (es : list (Vec * Document)) :
  StronglySorted (fun a b : Hit => hit_id a < hit_id b) (scored dist qv es).
Proof. apply (scored_from_sorted qv es 0). Qed.

Lemma StronglySorted_lookup {A} (R : relation A) (l : list A) i j a b :
  StronglySorted R l -> l !! i = Some a -> l !! j = Some b -> i < j -> R a b.
Proof.
  intros Hs. revert i j; induction Hs as [|x l Hl IH Hx]; intros i j Hi Hj Hij.
  - by rewrite lookup_nil in Hi.
  - destruct j as [|j]; [lia|]. destruct i as [|i]; simpl in *.
    + injection Hi as ->. rewrite Forall_forall in Hx. apply Hx.
      by eapply list_elem_of_lookup_2.
    + eapply IH; [done..|lia].
Qed.

Lemma search_faiss (vs : FAISS Vec) (query : str) (k : nat) (w : World Vec) :
  search (H := FAISS_store dist leb) (Some vs) query k w
  = (mkWorld (trace w ++ [EmbedQuery query]) (fs w),
     inr (map hit_doc (nearest dist leb vs query k))).
Proof.
  unfold search, similarity_search, FAISS_store, faiss_similarity_search,
    faiss_similarity_search_with_score, bind, emit, ret. simpl.
  by rewrite map_map.
Qed.

(** C2.  A search in an index returns [min k n] chunks of the [n]
    indexed ones; they come in non-decreasing distance from the query
    embedding, chunks at the same distance in insertion order; every chunk
    left out is ranked after every chunk returned; and the same query
    against the same index returns the same list again. *)
Theorem search_nearest_first (vs : FAISS Vec) (query : str) (k : nat)
    (w : World Vec) :
  let qv := embed (embedding_function vs) query in
  exists hits : list Hit,
    search (H := FAISS_store dist leb) (Some vs) query k w
      = (mkWorld (trace w ++ [EmbedQuery query]) (fs w),
         inr (map hit_doc hits)) /\
    length hits = Nat.min k (ntotal vs) /\
    (forall h, h ∈ hits ->
       exists v, entries vs !! hit_id h = Some (v, hit_doc h) /\
                 hit_score h = dist qv v) /\
    (forall i j a b,
       hits !! i = Some a -> hits !! j = Some b -> i < j -> before a b) /\
    (forall h id v doc,
       h ∈ hits -> entries vs !! id = Some (v, doc) ->
       id ∉ hit_id <$> hits -> before h (mkHit id (dist qv v) doc)) /\
    (forall w' : World Vec,
       (search (H := FAISS_store dist leb) (Some vs) query k w').2
       = inr (map hit_doc hits)).
Proof.
  intros qv. exists (nearest dist leb vs query k).
  pose proof (rank_sorted (scored dist qv (entries vs)) (scored_sorted qv _))
    as Hsorted.
  pose proof (rank_perm (scored dist qv (entries vs))) as Hperm.
  unfold nearest. fold qv.
  set (ranked := rank leb (scored dist qv (entries vs))) in *.
  rewrite <- (take_drop k ranked) in Hsorted.
  split_and!.
  - apply search_faiss.
  - rewrite length_take, Hperm. unfold scored, ntotal.
    by rewrite length_imap.
  - intros h Hh. apply (subseteq_take k ranked) in Hh. rewrite Hperm in Hh.
    apply elem_of_lookup_imap in Hh as (i & [v doc] & -> & Hi). by exists v.
  - intros i j a b. apply StronglySorted_lookup.
    by eapply StronglySorted_app_1_l.
  - intros h id v doc Hh Hid Hout.
    eapply StronglySorted_app_1_elem_of; [exact Hsorted|done|].
    assert (mkHit id (dist qv v) doc ∈ ranked) as Hin.
    { rewrite Hperm. unfold scored.
      by apply (elem_of_lookup_imap_2
                  (fun i e => mkHit i (dist qv e.1) e.2) _ (v, doc) id). }
    rewrite <- (take_drop k ranked) in Hin. apply elem_of_app in Hin as [Hin|Hin]; [|done].
    exfalso. apply Hout. apply list_elem_of_fmap. by eexists; split; [|exact Hin].
  - intros w'. by rewrite search_faiss.
Qed.

End Ranking.

Lemma Z_leb_total (a b : Z) : Z.leb a b = true \/ Z.leb b a = true.
Proof. rewrite !Z.leb_le. lia. Qed.

Lemma Z_leb_trans (a b c : Z) :
  Z.leb a b = true -> Z.leb b c = true -> Z.leb a c = true.
Proof. rewrite !Z.leb_le. lia. Qed.

(** The query is as far from [chunk_a1] as from [chunk_b] and closest
    to [chunk_a2]: two chunks are asked for, [chunk_a2] comes first, and
    of the two others the one inserted first is returned. *)
Lemma search_nearest_first_witness :
  exists hits : list Hit,
    search (H := Sample.sample_store) (Some Sample.sample_index)
      (lit "What is it") 2 empty_world
      = (mkWorld [EmbedQuery (lit "What is it")] ∅, inr (map hit_doc hits)) /\
    length hits = 2 /\
    map hit_doc hits = [Sample.chunk_a2; Sample.chunk_a1] /\
    (forall i j a b,
       hits !! i = Some a -> hits !! j = Some b -> i < j ->
       before Z.leb a b).
Proof.
  destruct (search_nearest_first Sample.sample_dist Z.leb Z_leb_total Z_leb_trans
              Sample.sample_index (lit "What is it") 2 empty_world)
    as (hits & Hs & Hlen & _ & Hord & _ & _).
  exists hits. split_and!; [exact Hs|exact Hlen| |exact Hord].
  assert (search (H := Sample.sample_store) (Some Sample.sample_index)
            (lit "What is it") 2 empty_world
          = (mkWorld [EmbedQuery (lit "What is it")] ∅,
             inr [Sample.chunk_a2; Sample.chunk_a1])) as Hc by (by vm_compute).
  pose proof (eq_trans (eq_sym Hs) Hc) as Heq. by injection Heq.
Defined.

Section Index.
Context {Vec D : Type}.
Variable dist : Vec -> Vec -> D.
Variable leb : D -> D -> bool.
Variable titan_embed : str -> Vec.

(** C4.  Building an index from no chunks raises the [ValueError] that
    reports the empty input, whatever gateway is passed; nothing is
    embedded, no client is created and no index is returned. *)
Theorem create_vector_store_rejects_empty
    (embeddings : option (Embeddings Vec)) (w : World Vec) :
  create_vector_store titan_embed [] embeddings w
  = (w, inl (ValueError (lit "Cannot create vector store from empty chunks list"))).
Proof. reflexivity. Qed.

(** With chunks, the index holds one entry per chunk, in order. *)
Lemma create_vector_store_builds
    (c : Document) (chunks : list Document) (e : Embeddings Vec) (w : World Vec) :
  exists vs : FAISS Vec,
    create_vector_store titan_embed (c :: chunks) (Some e) w
    = (mkWorld (trace w ++ [EmbedDocuments (map page_content (c :: chunks))]) (fs w),
       inr vs) /\
    (entries vs).*2 = c :: chunks /\ embedding_function vs = e.
Proof.
  eexists. split; [reflexivity|]. split; [|done]. simpl. f_equal.
  induction chunks as [|c' chunks IH]; [done|]. simpl. by f_equal.
Qed.

(** C3.  Saving an index and loading it back, with the gateway it was
    built with, succeeds and gives an index with the same entries (the
    same embeddings and chunks in the same order); no gateway is called on
    the way, and every search in the loaded index gives what the same
    search in the original gives. *)
Theorem persist_restore_search (vs : FAISS Vec) (path : str) (w : World Vec) :
  let saved := save_vector_store (H := FAISS_store dist leb) (Some vs) path w in
  saved.2 = inr tt /\
  exists restored : FAISS Vec,
    load_vector_store titan_embed path (Some (embedding_function vs)) saved.1
      = (saved.1, inr restored) /\
    entries restored = entries vs /\
    gateway_calls saved.1 = gateway_calls w /\
    forall (query : str) (k : nat) (w' : World Vec),
      search (H := FAISS_store dist leb) (Some restored) query k w'
      = search (H := FAISS_store dist leb) (Some vs) query k w'.
Proof.
  simpl. split; [done|]. exists vs. split_and!; try done.
  unfold load_vector_store, faiss_load_local, bind, read_dir, ret.
  cbn [fs trace fst snd]. rewrite !lookup_insert_eq. cbn [fs trace].
  rewrite !lookup_insert_eq.
  destruct (decide (length (entries vs).*1 = length (entries vs).*2)) as [_|Hne].
  - rewrite zip_fst_snd. by destruct vs.
  - by rewrite !length_fmap in Hne.
Qed.
End Index.
End VectorStoreProps.

(** ** The orchestrator *)

Module RagProps.
Import PyStr Loader Effects VectorStore Rag Notions.

Section Citations.
Context `{EqDecision A}.

Lemma elem_of_first_occurrences (l : list A) (x : A) :
  x ∈ first_occurrences l <-> x ∈ l.
Proof.
  induction l as [|y l IH]; simpl; [done|].
  rewrite !elem_of_cons, list_elem_of_filter, IH.
  destruct (decide (x = y)); tauto.
Qed.

Lemma NoDup_first_occurrences (l : list A) : NoDup (first_occurrences l).
Proof.
  induction l as [|y l IH]; simpl; [constructor|].
  constructor; [|by apply NoDup_filter].
  rewrite list_elem_of_filter. tauto.
Qed.

(** Appending what is not yet in the list, from left to right, keeps
    the first occurrence of each element. *)
Lemma append_if_absent (l acc : list A) :
  fold_left (fun acc x => if decide (x ∈ acc) then acc else acc ++ [x]) l acc
  = acc ++ filter (fun x => x ∉ acc) (first_occurrences l).
Proof.
  revert acc; induction l as [|y l IH]; intros acc; simpl.
  - by rewrite app_nil_r.
  - rewrite IH, filter_cons. destruct (decide (y ∈ acc)) as [Hin|Hout].
    + rewrite decide_False by tauto. f_equal.
      rewrite list_filter_filter. apply list_filter_iff. intros x.
      split; [|tauto]. intros Hx. split; [done|]. by intros ->.
    + rewrite decide_True by done.
      rewrite <- app_assoc. simpl. do 2 f_equal.
      rewrite list_filter_filter. apply list_filter_iff. intros x.
      rewrite elem_of_app, list_elem_of_singleton. tauto.
Qed.

Lemma filter_all (P : A -> Prop) `{forall x, Decision (P x)} (l : list A) :
  (forall x, P x) -> filter P l = l.
Proof.
  intros HP. induction l as [|x l IH]; [done|].
  by rewrite filter_cons_True, IH.
Qed.

End Citations.

Lemma extract_sources_first_occurrences (docs : list Document) :
  extract_sources docs = first_occurrences (map source_info docs).
Proof.
  unfold extract_sources.
  assert (forall acc,
    fold_left
      (fun sources doc =>
         if decide (source_info doc ∈ sources) then sources
         else sources ++ [source_info doc]) docs acc
    = fold_left (fun acc x => if decide (x ∈ acc) then acc else acc ++ [x])
        (map source_info docs) acc) as ->.
  { induction docs as [|d docs IH]; intros acc; [done|]. simpl. by rewrite IH. }
  rewrite append_if_absent. simpl. apply filter_all.
  intros x. apply not_elem_of_nil.
Qed.

Lemma join_lookup (sep : str) (parts : list str) (i : nat) (p : str) :
  parts !! i = Some p -> exists pre post, join sep parts = pre ++ p ++ post.
Proof.
  revert i; induction parts as [|q parts IH]; intros i Hi; [done|].
  destruct i as [|i]; simpl in Hi.
  - injection Hi as ->. destruct parts as [|q' parts].
    + exists [], []. simpl. by rewrite app_nil_r.
    + by exists [], (sep ++ join sep (q' :: parts)).
  - destruct parts as [|q' parts]; [done|].
    destruct (IH i Hi) as (pre & post & E).
    exists (q ++ sep ++ pre), post.
    change (join sep (q :: q' :: parts)) with (q ++ sep ++ join sep (q' :: parts)).
    by rewrite E, <- !app_assoc.
Qed.

Section Ask.
Context {Vec D VS : Type} `{!@VectorStoreLike Vec D VS}.
Variable nova_lite : str -> Exc + str.

Abbreviation KB := (@KnowledgeBaseRAG VS Vec).

(** [_init_llm] always returns; afterwards there is a model handle, the
    vector store is the one there was, and no gateway has been called. *)
Lemma _init_llm_returns (self : KB) (w : World Vec) :
  exists (w1 : World Vec) (self1 : KB) (model : ChatBedrock),
    _init_llm nova_lite self w = (w1, inr self1) /\
    llm self1 = Some model /\
    vectorstore self1 = vectorstore self /\
    gateway_calls w1 = gateway_calls w.
Proof.
  unfold _init_llm. destruct (llm self) as [model|] eqn:Hllm.
  - by exists w, self, model.
  - eexists _, _, _. split; [reflexivity|]. split_and!; try done.
    unfold gateway_calls. cbn [trace]. rewrite filter_app. apply app_nil_r.
Qed.

(** When the search finds nothing, [ask] returns the fixed answer with
    no sources, and the generator is not invoked. *)
Lemma ask_no_results
    (self self1 : KB) (question : str) (k : nat) (show_context : bool)
    (w w1 w2 : World Vec) :
  _init_llm nova_lite self w = (w1, inr self1) ->
  search (vectorstore self1) question k w1 = (w2, inr []) ->
  ask nova_lite self question k show_context w
  = (w2,
     inr (self1,
          mkRetrievalResult question
            (lit "No relevant information found in the knowledge base for this question.")
            [] 0)).
Proof.
  intros Hinit Hsearch. unfold ask, bind. rewrite Hinit.
  destruct (vectorstore self1) as [vs|] eqn:Hvs; [|done].
  by rewrite Hsearch.
Qed.

(** What [ask] returns when the search finds chunks and the generator
    answers. *)
Lemma ask_with_chunks
    (self self1 : KB) (question : str) (k : nat) (show_context : bool)
    (w w1 w2 : World Vec) (docs : list Document)
    (model : ChatBedrock) (content : str) :
  _init_llm nova_lite self w = (w1, inr self1) ->
  search (vectorstore self1) question k w1 = (w2, inr docs) ->
  docs <> [] ->
  llm self1 = Some model ->
  complete model (build_prompt (build_context docs) question) = inr content ->
  ask nova_lite self question k show_context w
  = (mkWorld (trace w2 ++ [Generate (build_prompt (build_context docs) question)])
       (fs w2),
     inr (self1,
          mkRetrievalResult question content
            (first_occurrences (map source_info docs)) (length docs))).
Proof.
  intros Hinit Hsearch Hdocs Hllm Hanswer.
  unfold ask, bind. rewrite Hinit.
  destruct (vectorstore self1) as [vs|] eqn:Hvs; [|done].
  rewrite Hsearch. destruct docs as [|d docs]; [done|].
  rewrite Hllm. unfold invoke, bind, emit. rewrite Hanswer.
  unfold ret. by rewrite extract_sources_first_occurrences.
Qed.

(** C1.  When the search returns chunks and the generator answers, [ask]
    returns the citation records of the chunks in rank order, each kept
    at its first occurrence only, and [num_chunks_used] is the number of
    chunks retrieved.  So no record is listed twice, every chunk's record
    is listed, and three chunks of which exactly two share a record give
    two sources for three chunks used. *)
Theorem ask_sources_first_occurrences
    (self self1 : KB) (question : str) (k : nat) (show_context : bool)
    (w w1 w2 : World Vec) (docs : list Document)
    (model : ChatBedrock) (content : str) :
  _init_llm nova_lite self w = (w1, inr self1) ->
  search (vectorstore self1) question k w1 = (w2, inr docs) ->
  docs <> [] ->
  llm self1 = Some model ->
  complete model (build_prompt (build_context docs) question) = inr content ->
  exists result : RetrievalResult,
    ask nova_lite self question k show_context w
      = (mkWorld (trace w2 ++ [Generate (build_prompt (build_context docs) question)])
           (fs w2),
         inr (self1, result)) /\
    answer result = content /\
    sources result = first_occurrences (map source_info docs) /\
    num_chunks_used result = length docs /\
    NoDup (sources result) /\
    (forall doc, doc ∈ docs -> source_info doc ∈ sources result) /\
    (forall c1 c2 c3,
        docs = [c1; c2; c3] ->
        (source_info c1 = source_info c2 /\ source_info c3 <> source_info c1) \/
        (source_info c1 = source_info c3 /\ source_info c2 <> source_info c1) \/
        (source_info c2 = source_info c3 /\ source_info c1 <> source_info c2) ->
        length (sources result) = 2 /\ num_chunks_used result = 3).
Proof.
  intros Hinit Hsearch Hdocs Hllm Hanswer. eexists.
  split; [by eapply ask_with_chunks|]. simpl. split_and!; try done.
  - apply NoDup_first_occurrences.
  - intros doc Hdoc. apply elem_of_first_occurrences.
    apply list_elem_of_In, in_map. by apply list_elem_of_In.
  - intros c1 c2 c3 -> Hshare. split; [|done]. simpl.
    rewrite !filter_cons, filter_nil.
    destruct Hshare as [[E N]|[[E N]|[E N]]];
      repeat (case_decide; simpl; rewrite ?filter_cons, ?filter_nil; simpl);
      congruence.
Qed.

(** C5.  Without a vector store, [ask] returns normally: the answer
    says that the knowledge base is not initialized, there are no sources
    and no chunks used.  Nothing is embedded, searched or generated; the
    only effect is that the model handle is built if there was none. *)
Theorem ask_not_initialized
    (self : KB) (question : str) (k : nat) (show_context : bool)
    (w : World Vec) :
  vectorstore self = None ->
  exists (self' : KB) (w' : World Vec) (result : RetrievalResult),
    ask nova_lite self question k show_context w = (w', inr (self', result)) /\
    Rag.question result = question /\
    answer result
      = lit "❌ Knowledge base not initialized. Load documents and create index first." /\
    contains (lit "not initialized") (lower (answer result)) = true /\
    sources result = [] /\
    num_chunks_used result = 0 /\
    gateway_calls w' = gateway_calls w /\
    fs w' = fs w.
Proof.
  intros Hvs.
  assert (contains (lit "not initialized")
            (lower (lit "❌ Knowledge base not initialized. Load documents and create index first."))
          = true) as Hmarker by (vm_compute; reflexivity).
  unfold ask, bind, _init_llm.
  destruct (llm self) as [model|]; unfold emit, ret; cbn [vectorstore];
    rewrite Hvs; eexists _, _, _.
  - split; [reflexivity|]. cbn [Rag.question answer sources num_chunks_used].
    by split_and!.
  - split; [reflexivity|]. cbn [Rag.question answer sources num_chunks_used fs].
    split_and!; [done..| |done]. unfold gateway_calls. cbn [trace].
    rewrite filter_app. apply app_nil_r.
Qed.

(** C10, as the code has it.  For every retrieved chunk, the prompt sent
    to the generator holds the chunk's block, labelled with its rank, its
    source and its author, and the returned sources hold its record of
    source, author and topic; in both, a field the metadata lacks reads
    "Unknown".  The block has no topic.  No record is listed twice, so
    chunks lacking the same fields share one citation. *)
Theorem ask_unknown_defaults
    (self self1 : KB) (question : str) (k : nat) (show_context : bool)
    (w w1 w2 : World Vec) (docs : list Document)
    (model : ChatBedrock) (content : str) :
  _init_llm nova_lite self w = (w1, inr self1) ->
  search (vectorstore self1) question k w1 = (w2, inr docs) ->
  docs <> [] ->
  llm self1 = Some model ->
  complete model (build_prompt (build_context docs) question) = inr content ->
  exists (result : RetrievalResult) (prompt : str),
    ask nova_lite self question k show_context w
      = (mkWorld (trace w2 ++ [Generate prompt]) (fs w2), inr (self1, result)) /\
    NoDup (sources result) /\
    forall (i : nat) (doc : Document),
      docs !! i = Some doc ->
      let field (key : string) : str :=
        match metadata doc !! lit key with
        | Some value => value
        | None => lit "Unknown"
        end in
      (exists pre post : str,
          prompt = pre ++
                   (lit "[Source " ++ of_nat (S i) ++ lit ": " ++ field "source"%string
                      ++ lit " by " ++ field "author"%string ++ lit "]" ++ [nl]
                      ++ page_content doc)
                   ++ post) /\
      mkSourceInfo (field "source"%string) (field "author"%string) (field "topic"%string)
        ∈ sources result.
Proof.
  intros Hinit Hsearch Hdocs Hllm Hanswer.
  eexists _, (build_prompt (build_context docs) question).
  split; [by eapply ask_with_chunks|]. cbn [sources].
  split; [apply NoDup_first_occurrences|]. intros i doc Hi. split.
  - assert (imap (fun i doc => context_part (S i) doc) docs !! i
            = Some (context_part (S i) doc)) as Hpart
      by (by rewrite list_lookup_imap, Hi).
    destruct (join_lookup (lit "

") _ _ _ Hpart) as (pre & post & E).
    assert (exists pre post : str,
               build_prompt (build_context docs) question
               = pre ++ context_part (S i) doc ++ post) as (pre' & post' & E').
    { unfold build_prompt, build_context. rewrite E.
      generalize (context_part (S i) doc). intros block.
      match goal with
      | |- exists _ _, ?A ++ _ ++ ?B = _ => exists (A ++ pre), (post ++ B)
      end.
      by rewrite <- !app_assoc. }
    exists pre', post'. rewrite E'. reflexivity.
  - change (source_info doc ∈ first_occurrences (map source_info docs)).
    apply elem_of_first_occurrences.
    apply list_elem_of_In, (in_map source_info), list_elem_of_In.
    by eapply list_elem_of_lookup_2.
Qed.

End Ask.

(** The spec's example: chunks from a.txt, a.txt and b.txt. *)
Lemma ask_sources_first_occurrences_witness :
  exists (kb : KnowledgeBaseRAG (FAISS Z)) (w : World Z) (result : RetrievalResult),
    ask (H := Sample.sample_store) Sample.sample_llm Sample.sample_kb (lit "Question?") 3 false empty_world
      = (w, inr (kb, result)) /\
    sources result
      = [mkSourceInfo (lit "a.txt") (lit "Ann") (lit "Testing");
         mkSourceInfo (lit "b.txt") (lit "Bob") (lit "Python")] /\
    num_chunks_used result = 3.
Proof.
  pose (docs := [Sample.chunk_a1; Sample.chunk_a2; Sample.chunk_b]).
  pose (w1 := mkWorld (Vec := Z) [ClientCreated (lit "bedrock-runtime")] ∅).
  pose (w2 := mkWorld (Vec := Z)
                [ClientCreated (lit "bedrock-runtime"); EmbedQuery (lit "Question?")] ∅).
  pose (kb1 := mkKnowledgeBaseRAG [] (chunks Sample.sample_kb)
                 (Some Sample.sample_index) (Some Sample.sample_gateway)
                 (Some Sample.sample_model)).
  destruct (ask_sources_first_occurrences (H := Sample.sample_store) Sample.sample_llm
              Sample.sample_kb kb1 (lit "Question?") 3 false
              empty_world w1 w2 docs Sample.sample_model (lit "Test answer"))
    as (result & Hask & _ & Hsrc & Hnum & _);
    [reflexivity|by vm_compute|done|reflexivity|reflexivity|].
  eexists _, _, result. split; [exact Hask|]. split; [|exact Hnum].
  rewrite Hsrc. by vm_compute.
Defined.

Lemma ask_not_initialized_witness :
  exists (kb : KnowledgeBaseRAG (FAISS Z)) (w : World Z) (result : RetrievalResult),
    ask (H := Sample.sample_store) Sample.sample_llm __init__ (lit "test question") 3 false empty_world
      = (w, inr (kb, result)) /\
    sources result = [] /\ num_chunks_used result = 0 /\
    gateway_calls w = [].
Proof.
  destruct (ask_not_initialized (H := Sample.sample_store) Sample.sample_llm __init__
              (lit "test question") 3 false empty_world eq_refl)
    as (kb & w & result & Hask & _ & _ & _ & Hsrc & Hnum & Hcalls & _).
  by exists kb, w, result.
Defined.

(** Two chunks without metadata: one citation, all fields "Unknown". *)
Lemma ask_unknown_defaults_witness :
  exists (kb : KnowledgeBaseRAG (FAISS Z)) (w : World Z) (result : RetrievalResult),
    ask (H := Sample.sample_store) Sample.sample_llm Sample.bare_kb (lit "Question?") 3 false empty_world
      = (w, inr (kb, result)) /\
    mkSourceInfo (lit "Unknown") (lit "Unknown") (lit "Unknown") ∈ sources result /\
    NoDup (sources result).
Proof.
  pose (docs := [Sample.chunk_bare; Sample.chunk_bare']).
  pose (w1 := mkWorld (Vec := Z) [ClientCreated (lit "bedrock-runtime")] ∅).
  pose (w2 := mkWorld (Vec := Z)
                [ClientCreated (lit "bedrock-runtime"); EmbedQuery (lit "Question?")] ∅).
  pose (kb1 := mkKnowledgeBaseRAG [] (chunks Sample.bare_kb)
                 (vectorstore Sample.bare_kb) (Some Sample.sample_gateway)
                 (Some Sample.sample_model)).
  destruct (ask_unknown_defaults (H := Sample.sample_store) Sample.sample_llm
              Sample.bare_kb kb1 (lit "Question?") 3 false
              empty_world w1 w2 docs Sample.sample_model (lit "Test answer"))
    as (result & prompt & Hask & Hnd & Hfields);
    [reflexivity|by vm_compute|done|reflexivity|reflexivity|].
  eexists _, _, result. split; [exact Hask|]. split; [|exact Hnd].
  by destruct (Hfields 0 Sample.chunk_bare eq_refl) as [_ Hin].
Defined.

(** C10 as stated fails for the topic: the block of a chunk without a
    topic does not hold "Unknown". *)
Lemma no_unknown_topic_in_block :
  ~ unknown_in_block Sample.chunk_no_topic "topic".
Proof.
  intros H. assert (metadata Sample.chunk_no_topic !! lit "topic" = None) as Hm
    by by_compute.
  apply H in Hm. vm_compute in Hm. discriminate.
Qed.

Example context_part_no_topic :
  context_part 1 Sample.chunk_no_topic = lit "[Source 1: a.txt by Ann]
Content".
Proof. by vm_compute. Qed.

End RagProps.

(** * Further properties *)

(** ** parse_metadata: what every result looks like *)

Module ParseProps.
Import PyStr Loader Notions PyStrFacts LoaderFacts.









(** Trimming removes whitespace at both ends and nothing else. *)
Lemma lstrip_split (s : str) : exists pre, s = pre ++ lstrip s.
Proof.
  induction s as [|c s [pre IH]]; [by exists []|]. simpl.
  destruct (is_space c); [|by exists []].
  exists (c :: pre). simpl. by f_equal.
Qed.

Lemma rstrip_split (s : str) : exists post, s = rstrip s ++ post.
Proof.
  unfold rstrip. destruct (lstrip_split (rev s)) as [pre E].
  exists (rev pre). rewrite <- rev_app_distr, <- E. by rewrite rev_involutive.
Qed.

Lemma strip_split (s : str) : exists pre post, s = pre ++ strip s ++ post.
Proof.
  unfold strip. destruct (lstrip_split s) as [pre E].
  destruct (rstrip_split (lstrip s)) as [post E'].
  exists pre, post. by rewrite <- E', <- E.
Qed.


Lemma length_strip (s : str) : length (strip s) <= length s.
Proof.
  destruct (strip_split s) as (pre & post & E). rewrite E at 2.
  rewrite !length_app. lia.
Qed.












End ParseProps.

(** ** Loading documents and their statistics *)

Module CorpusProps.
Import PyStr Loader Rag Corpus CorpusNotions PyStrFacts LoaderFacts.

Lemma load_loop_omap (files : list TextFile) (acc : list Document) :
  fold_left
    (fun documents file =>
       match file_text file with
       | None => documents
       | Some text =>
           let '(metadata, content) := parse_metadata text in
           let metadata := <[lit "source" := file_name file]> metadata in
           let metadata := <[lit "filepath" := file_path file]> metadata in
           documents ++ [mkDocument content metadata]
       end)
    files acc
  = acc ++ omap document_of_file files.
Proof.
  revert acc; induction files as [|file files IH]; intros acc; simpl.
  - by rewrite app_nil_r.
  - rewrite IH. unfold document_of_file at 2.
    destruct (file_text file) as [text|]; [|done].
    destruct (parse_metadata text) as [m c]. simpl. by rewrite <- app_assoc.
Qed.

Lemma load_knowledge_base_omap
    (disk : gmap str (list TextFile)) (directory : str) (files : list TextFile) :
  disk !! directory = Some files ->
  load_knowledge_base disk directory = omap document_of_file files.
Proof. intros H. unfold load_knowledge_base. rewrite H. apply load_loop_omap. Qed.

Lemma load_knowledge_base_missing
    (disk : gmap str (list TextFile)) (directory : str) :
  disk !! directory = None -> load_knowledge_base disk directory = [].
Proof. intros H. unfold load_knowledge_base. by rewrite H. Qed.

(** X3.  From a directory that exists, [load_knowledge_base] returns one
    document per file that can be read, in the order of the files, each
    with the name of its file as [source]; a file that cannot be read is
    skipped and the files after it are still loaded. *)
Theorem load_knowledge_base_readable_files
    (disk : gmap str (list TextFile)) (directory : str) (files : list TextFile) :
  disk !! directory = Some files ->
  (fun doc => metadata doc !! lit "source") <$> load_knowledge_base disk directory
  = (fun file => Some (file_name file)) <$> filter readable files.
Proof.
  intros H. rewrite (load_knowledge_base_omap _ _ _ H). clear H.
  induction files as [|file files IH]; [done|].
  rewrite filter_cons.
  change (omap document_of_file (file :: files)) with
    (match document_of_file file with
     | Some doc => doc :: omap document_of_file files
     | None => omap document_of_file files
     end).
  destruct (decide (readable file)) as [[text Ht]|Hn].
  - unfold document_of_file at 1. rewrite Ht. cbn [fmap list_fmap].
    f_equal; [|exact IH]. cbn [metadata].
    rewrite lookup_insert_ne by by_compute. apply lookup_insert_eq.
  - unfold document_of_file at 1.
    destruct (file_text file) as [text|] eqn:Ht; [|exact IH].
    exfalso. apply Hn. unfold readable. rewrite Ht. by eexists.
Qed.

Lemma load_knowledge_base_readable_files_witness :
  (fun doc => metadata doc !! lit "source")
    <$> load_knowledge_base Fixtures.sample_disk (lit "knowledge_base")
  = [Some (lit "notes.txt"); Some (lit "plain.txt")].
Proof.
  rewrite (load_knowledge_base_readable_files _ _
             [Fixtures.notes; Fixtures.broken; Fixtures.plain]).
  - reflexivity.
  - reflexivity.
Defined.

(** X4.  Every document [load_knowledge_base] returns comes from a file
    that could be read: its content is the body [parse_metadata] gives for
    the text of the file, its [source] and [filepath] are the name and the
    path of the file, also when the header declares such fields, and all
    other fields are those of the header.  So its citation record names
    the file. *)
Theorem load_knowledge_base_provenance
    (disk : gmap str (list TextFile)) (directory : str) (doc : Document) :
  doc ∈ load_knowledge_base disk directory ->
  exists (files : list TextFile) (file : TextFile) (text : str),
    disk !! directory = Some files /\ file ∈ files /\
    file_text file = Some text /\
    page_content doc = (parse_metadata text).2 /\
    metadata doc !! lit "source" = Some (file_name file) /\
    metadata doc !! lit "filepath" = Some (file_path file) /\
    (forall key, key <> lit "source" -> key <> lit "filepath" ->
                 metadata doc !! key = (parse_metadata text).1 !! key) /\
    Rag.file (source_info doc) = file_name file.
Proof.
  intros Hdoc. destruct (disk !! directory) as [files|] eqn:Hdir.
  - rewrite (load_knowledge_base_omap _ _ _ Hdir) in Hdoc.
    apply list_elem_of_omap in Hdoc as (file & Hfile & Hd).
    unfold document_of_file in Hd.
    destruct (file_text file) as [text|] eqn:Htext; [|done].
    injection Hd as <-. exists files, file, text.
    assert (forall m : gmap str str,
      <[lit "filepath" := file_path file]> (<[lit "source" := file_name file]> m)
        !! lit "source" = Some (file_name file)) as Hsource.
    { intros m. rewrite lookup_insert_ne by by_compute. apply lookup_insert_eq. }
    split_and!; try done.
    + apply Hsource.
    + apply lookup_insert_eq.
    + intros key H1 H2. simpl. by rewrite !lookup_insert_ne.
    + unfold source_info, get_or_unknown. simpl. by rewrite Hsource.
  - rewrite (load_knowledge_base_missing _ _ Hdir) in Hdoc.
    by apply elem_of_nil in Hdoc.
Qed.

Lemma load_knowledge_base_provenance_witness :
  Fixtures.sample_disk !! lit "knowledge_base"
    = Some [Fixtures.notes; Fixtures.broken; Fixtures.plain] /\
  exists doc : Document,
    doc ∈ load_knowledge_base Fixtures.sample_disk (lit "knowledge_base") /\
    metadata doc !! lit "author" = Some (lit "Ann") /\
    metadata doc !! lit "source" = Some (lit "notes.txt") /\
    Rag.file (source_info doc) = lit "notes.txt".
Proof.
  split; [reflexivity|].
  destruct (document_of_file Fixtures.notes) as [doc|] eqn:Hdoc; [|done].
  assert (doc ∈ load_knowledge_base Fixtures.sample_disk (lit "knowledge_base"))
    as Hin.
  { rewrite (load_knowledge_base_omap _ _
               [Fixtures.notes; Fixtures.broken; Fixtures.plain])
      by reflexivity.
    apply list_elem_of_omap. exists Fixtures.notes. split; [left|exact Hdoc]. }
  exists doc. split; [exact Hin|].
  destruct (load_knowledge_base_provenance _ _ _ Hin)
    as (files & file & text & _ & _ & _ & _ & _ & _ & _ & _).
  injection Hdoc as <-. split_and!; vm_compute; reflexivity.
Defined.

(** *** The order of strings *)

Lemma str_leb_total (s t : str) : str_leb s t = true \/ str_leb t s = true.
Proof.
  revert t; induction s as [|c s IH]; intros [|d t]; simpl; auto.
  rewrite (N.compare_antisym (N_of_ascii c) (N_of_ascii d)).
  destruct (N_of_ascii c ?= N_of_ascii d)%N; simpl; auto.
Qed.

Lemma str_leb_trans (s t u : str) :
  str_leb s t = true -> str_leb t u = true -> str_leb s u = true.
Proof.
  revert t u; induction s as [|c s IH]; intros [|d t] [|e u]; simpl; try done.
  destruct (N.compare_spec (N_of_ascii c) (N_of_ascii d)) as [E1|L1|G1];
    destruct (N.compare_spec (N_of_ascii d) (N_of_ascii e)) as [E2|L2|G2];
    try done; intros H1 H2;
    destruct (N.compare_spec (N_of_ascii c) (N_of_ascii e)) as [E3|L3|G3];
    try done; try lia.
  by eapply IH.
Qed.

Lemma str_leb_antisym (s t : str) :
  str_leb s t = true -> str_leb t s = true -> s = t.
Proof.
  revert t; induction s as [|c s IH]; intros [|d t]; simpl; try done.
  rewrite (N.compare_antisym (N_of_ascii c) (N_of_ascii d)).
  destruct (N.compare_spec (N_of_ascii c) (N_of_ascii d)) as [E|L|G];
    simpl; try done.
  intros H1 H2. f_equal; [|by apply IH].
  by rewrite <- (ascii_N_embedding c), <- (ascii_N_embedding d), E.
Qed.

#[export] Instance str_le_total : Total str_le.
Proof. intros s t. apply str_leb_total. Qed.

#[export] Instance str_le_trans : Transitive str_le.
Proof. intros s t u. apply str_leb_trans. Qed.

#[export] Instance str_le_antisym : AntiSymm (=) str_le.
Proof. intros s t. apply str_leb_antisym. Qed.

(** [sorted] lists the elements of the set, each once, in ascending
    order. *)
Lemma sorted_Permutation (values : gset str) : sorted values ≡ₚ elements values.
Proof. apply merge_sort_Permutation. Qed.

Lemma elem_of_sorted (values : gset str) (x : str) : x ∈ sorted values <-> x ∈ values.
Proof. by rewrite sorted_Permutation, elem_of_elements. Qed.

Lemma NoDup_sorted (values : gset str) : NoDup (sorted values).
Proof. rewrite sorted_Permutation. apply NoDup_elements. Qed.

Lemma length_sorted (values : gset str) : length (sorted values) = size values.
Proof. by rewrite sorted_Permutation. Qed.

Lemma StronglySorted_sorted (values : gset str) : StronglySorted str_le (sorted values).
Proof. apply (StronglySorted_merge_sort str_le). Qed.

(** *** The loop of the statistics *)

Lemma stats_loop_fold (docs : list Document)
    (authors topics : gset str) (length_so_far words_so_far : nat) :
  fold_left
    (fun '(authors, topics, total_length, total_words) doc =>
       let author := default (lit "Unknown") (metadata doc !! lit "author") in
       let topic := default (lit "Unknown") (metadata doc !! lit "topic") in
       (authors ∪ {[author]}, topics ∪ {[topic]},
        total_length + length (page_content doc),
        total_words + length (split_whitespace (page_content doc))))
    docs (authors, topics, length_so_far, words_so_far)
  = (authors ∪ list_to_set (author_of <$> docs),
     topics ∪ list_to_set (topic_of <$> docs),
     length_so_far + total_length docs,
     words_so_far + total_words docs).
Proof.
  revert authors topics length_so_far words_so_far.
  induction docs as [|doc docs IH]; intros authors topics n m.
  - cbn [fold_left]. rewrite !fmap_nil, !list_to_set_nil.
    rewrite !(right_id_L ∅ (∪)).
    unfold total_length, total_words. rewrite !fmap_nil. cbn [sum_list_with].
    rewrite !Nat.add_0_r. reflexivity.
  - cbn [fold_left]. rewrite IH. unfold total_length, total_words.
    rewrite !fmap_cons, !list_to_set_cons. cbn [sum_list_with].
    rewrite !Nat.add_assoc. 
    rewrite !(assoc_L (∪)). reflexivity.
Qed.

Lemma stats_loop_eq (docs : list Document) :
  stats_loop docs
  = (list_to_set (author_of <$> docs), list_to_set (topic_of <$> docs),
     total_length docs, total_words docs).
Proof.
  unfold stats_loop. rewrite stats_loop_fold.
  rewrite !(left_id_L ∅ (∪)). reflexivity.
Qed.




Lemma sorted_values_of_set (f : Document -> str) (docs : list Document) :
  sorted_values f docs (sorted (list_to_set (f <$> docs))).
Proof.
  split_and!.
  - apply StronglySorted_sorted.
  - apply NoDup_sorted.
  - intros x. rewrite elem_of_sorted, elem_of_list_to_set, list_elem_of_fmap.
    split; intros (doc & H1 & H2); exists doc; by split.
Qed.

Lemma size_values_bounds (f : Document -> str) (docs : list Document) :
  docs <> [] ->
  1 <= size (list_to_set (f <$> docs) : gset str) <= length docs.
Proof.
  intros Hne. split.
  - destruct docs as [|doc docs]; [done|].
    rewrite fmap_cons, list_to_set_cons, size_union_alt, size_singleton. lia.
  - rewrite <- (length_fmap f docs).
    generalize (f <$> docs). intros l. induction l as [|x l IH].
    + by rewrite list_to_set_nil, size_empty.
    + rewrite list_to_set_cons, size_union_alt, size_singleton. cbn [length].
      assert (list_to_set l ∖ {[x]} ⊆ (list_to_set l : gset str)) as Hs
        by (by apply subseteq_difference_l).
      apply subseteq_size in Hs. lia.
Qed.

Ltac stats_lookup :=
  repeat (rewrite lookup_insert_ne by by_compute); apply lookup_insert_eq.

Lemma get_document_stats_nonempty (docs : list Document) :
  docs <> [] ->
  get_document_stats docs
  = <[lit "total_documents" := SInt (length docs)]>
    (<[lit "unique_authors" :=
         SInt (size (list_to_set (author_of <$> docs) : gset str))]>
    (<[lit "authors" := SList (sorted (list_to_set (author_of <$> docs)))]>
    (<[lit "topics" := SList (sorted (list_to_set (topic_of <$> docs)))]>
    (<[lit "avg_length" := SInt (total_length docs / length docs)]>
    (<[lit "total_words" := SInt (total_words docs)]>
    (<[lit "avg_words_per_doc" := SInt (total_words docs / length docs)]>
       ∅)))))).
Proof.
  intros Hne. destruct docs as [|doc docs]; [done|].
  unfold get_document_stats. by rewrite stats_loop_eq.
Qed.

(** X5.  The statistics dictionary always has the six keys
    [total_documents], [unique_authors], [authors], [topics], [avg_length]
    and [total_words]; the key [avg_words_per_doc] is there exactly when
    the list of documents is not empty, and there is no other key. *)
Theorem get_document_stats_keys (docs : list Document) :
  dom (get_document_stats docs)
  = if decide (docs = []) then common_keys
    else common_keys ∪ {[lit "avg_words_per_doc"]}.
Proof.
  destruct (decide (docs = [])) as [->|Hne].
  - unfold get_document_stats, common_keys.
    rewrite !dom_insert_L, dom_empty_L. set_solver.
  - rewrite (get_document_stats_nonempty _ Hne). unfold common_keys.
    rewrite !dom_insert_L, dom_empty_L. set_solver.
Qed.

(** X6.  For a list of documents that is not empty, [authors] lists the
    authors of the documents, a document without author counting as
    ["Unknown"], each once and in ascending order; [topics] does the same
    for the topics; [unique_authors] is the length of [authors], at least
    1 and at most the number of documents. *)
Theorem get_document_stats_authors_topics (docs : list Document) :
  docs <> [] ->
  exists authors topics : list str,
    get_document_stats docs !! lit "authors" = Some (SList authors) /\
    get_document_stats docs !! lit "topics" = Some (SList topics) /\
    get_document_stats docs !! lit "unique_authors"
      = Some (SInt (length authors)) /\
    sorted_values author_of docs authors /\
    sorted_values topic_of docs topics /\
    1 <= length authors <= length docs /\
    1 <= length topics <= length docs.
Proof.
  intros Hne. rewrite (get_document_stats_nonempty _ Hne).
  exists (sorted (list_to_set (author_of <$> docs))),
         (sorted (list_to_set (topic_of <$> docs))).
  rewrite !length_sorted. split_and!.
  - stats_lookup.
  - stats_lookup.
  - stats_lookup.
  - apply sorted_values_of_set.
  - apply sorted_values_of_set.
  - by apply size_values_bounds.
  - by apply size_values_bounds.
  - by apply size_values_bounds.
  - by apply size_values_bounds.
Qed.

Lemma get_document_stats_authors_topics_witness :
  exists authors topics : list str,
    get_document_stats Fixtures.shelf !! lit "authors"
      = Some (SList authors) /\
    get_document_stats Fixtures.shelf !! lit "topics"
      = Some (SList topics) /\
    get_document_stats Fixtures.shelf !! lit "unique_authors"
      = Some (SInt (length authors)) /\
    sorted_values author_of Fixtures.shelf authors /\
    sorted_values topic_of Fixtures.shelf topics /\
    1 <= length authors <= length Fixtures.shelf /\
    1 <= length topics <= length Fixtures.shelf.
Proof. apply get_document_stats_authors_topics. discriminate. Defined.




End CorpusProps.

(** ** The knowledge base object and the shells *)

Module ShellProps.
Import PyStr Loader Effects VectorStore Rag Corpus Shell Notions CorpusNotions.
Import RagProps CorpusProps.

Lemma length_first_occurrences {A} `{EqDecision A} (l : list A) :
  length (first_occurrences l) <= length l.
Proof.
  induction l as [|x l IH]; [done|]. cbn [first_occurrences length].
  pose proof (length_filter (fun y => y <> x) (first_occurrences l)). lia.
Qed.

Section Object.
Context {Vec D VS : Type} `{!@VectorStoreLike Vec D VS}.
Variable nova_lite : str -> Exc + str.
Variable disk : gmap str (list TextFile).

Abbreviation KB := (@KnowledgeBaseRAG VS Vec).

Lemma load_eq (self : KB) (directory : str) :
  load disk self directory
  = inr (mkKnowledgeBaseRAG (load_knowledge_base disk directory)
           (chunks self) (vectorstore self) (embeddings self) (llm self),
         length (load_knowledge_base disk directory)).
Proof.
  unfold load.
  destruct (load_knowledge_base disk directory) as [|doc docs] eqn:E; [done|].
  cbv zeta. rewrite get_document_stats_nonempty by done.
  unfold stat_int, stat_list.
  repeat (rewrite lookup_insert_ne by by_compute).
  rewrite lookup_insert_eq.
  do 5 (rewrite lookup_insert_ne by by_compute).
  rewrite lookup_insert_eq.
  do 6 (rewrite lookup_insert_ne by by_compute).
  rewrite lookup_insert_eq.
  do 2 (rewrite lookup_insert_ne by by_compute).
  rewrite lookup_insert_eq.
  do 3 (rewrite lookup_insert_ne by by_compute).
  rewrite lookup_insert_eq.
  reflexivity.
Qed.

Lemma length_omap_document_of_file (files : list TextFile) :
  length (omap document_of_file files) = length (filter readable files).
Proof.
  induction files as [|file files IH]; [done|].
  rewrite filter_cons.
  change (omap document_of_file (file :: files)) with
    (match document_of_file file with
     | Some doc => doc :: omap document_of_file files
     | None => omap document_of_file files
     end).
  unfold document_of_file at 1.
  destruct (decide (readable file)) as [[text Ht]|Hn].
  - rewrite Ht. cbn [length]. by rewrite IH.
  - destruct (file_text file) as [text|] eqn:Ht; [|exact IH].
    exfalso. apply Hn. unfold readable. rewrite Ht. by eexists.
Qed.

(** X8.  [load] never fails: the statistics it prints are read only for
    a list of documents that is not empty, for which every key it reads
    is there with the type it is used at.  It returns the number of files
    of the directory that can be read, 0 for a directory that does not
    exist, stores the documents, and changes no other field. *)
Theorem load_counts_readable_files (self : KB) (directory : str) :
  exists self' : KB,
    load disk self directory
      = inr (self', length (filter readable (default [] (disk !! directory)))) /\
    documents self' = load_knowledge_base disk directory /\
    chunks self' = chunks self /\ vectorstore self' = vectorstore self /\
    embeddings self' = embeddings self /\ llm self' = llm self.
Proof.
  exists (mkKnowledgeBaseRAG (load_knowledge_base disk directory)
            (chunks self) (vectorstore self) (embeddings self) (llm self)).
  rewrite load_eq. split; [|by split_and!]. do 2 f_equal.
  destruct (disk !! directory) as [files|] eqn:Hdir.
  - rewrite (load_knowledge_base_omap _ _ _ Hdir).
    apply length_omap_document_of_file.
  - by rewrite (load_knowledge_base_missing _ _ Hdir).
Qed.

(** [_init_llm] always returns, with a model handle: the one there was,
    or a new one; no other field changes, no gateway is called and
    nothing is written. *)
Lemma _init_llm_cases (self : KB) (w : World Vec) :
  exists (w1 : World Vec) (model : ChatBedrock),
    _init_llm nova_lite self w
      = (w1, inr (mkKnowledgeBaseRAG (documents self) (chunks self)
                    (vectorstore self) (embeddings self) (Some model))) /\
    (forall m, llm self = Some m -> model = m) /\
    gateway_calls w1 = gateway_calls w /\ fs w1 = fs w.
Proof.
  unfold _init_llm. destruct self as [ds cs vs es [m|]]; cbn.
  - exists w, m. split_and!; [done| |done..]. by intros ? [= ->].
  - eexists _, _. split; [reflexivity|]. split_and!; [done| |done].
    unfold gateway_calls. cbn [trace]. rewrite filter_app. apply app_nil_r.
Qed.

Lemma ask_without_store
    (self : KB) (question : str) (k : nat) (show_context : bool) (w : World Vec) :
  vectorstore self = None ->
  exists (w1 : World Vec) (model : ChatBedrock),
    ask nova_lite self question k show_context w
      = (w1, inr (mkKnowledgeBaseRAG (documents self) (chunks self) None
                    (embeddings self) (Some model),
                  not_initialized question)) /\
    gateway_calls w1 = gateway_calls w /\ fs w1 = fs w.
Proof.
  intros Hvs. destruct (_init_llm_cases self w) as (w1 & model & E & _ & Hg & Hf).
  exists w1, model. split; [|done].
  unfold ask, bind. rewrite E. cbn [vectorstore]. by rewrite Hvs.
Qed.

(** X10.  Whenever [ask] returns a result, the knowledge base is as it
    was, with the documents, the chunks, the vector store and the
    embeddings gateway unchanged and the model handle it had, or a new
    one if it had none; the result repeats the question, lists no source
    twice, and never lists more sources than chunks were used: no source
    exactly when no chunk was used. *)
Theorem ask_keeps_knowledge_base
    (self self' : KB) (question : str) (k : nat) (show_context : bool)
    (w w' : World Vec) (result : RetrievalResult) :
  ask nova_lite self question k show_context w = (w', inr (self', result)) ->
  documents self' = documents self /\ chunks self' = chunks self /\
  vectorstore self' = vectorstore self /\ embeddings self' = embeddings self /\
  is_Some (llm self') /\
  (forall model, llm self = Some model -> llm self' = Some model) /\
  Rag.question result = question /\
  NoDup (sources result) /\
  length (sources result) <= num_chunks_used result /\
  (sources result = [] <-> num_chunks_used result = 0).
Proof.
  intros Hask.
  destruct (_init_llm_cases self w) as (w1 & model & E & Hm & _).
  assert (forall m, llm self = Some m -> Some model = Some m) as Hm'
    by (intros m Hl; f_equal; by apply Hm).
  unfold ask, bind in Hask. rewrite E in Hask. cbn [vectorstore llm] in Hask.
  destruct (vectorstore self) as [vs|] eqn:Hvs.
  - destruct (search (Some vs) question k w1) as [w2 [e|docs]] eqn:Hs; [done|].
    destruct docs as [|doc docs].
    + injection Hask as <- <- <-. cbn. split_and!; try done. constructor.
    + unfold invoke, bind, emit in Hask.
      destruct (complete model _) as [e|content]; [done|].
      injection Hask as <- <- <-.
      cbn [documents chunks vectorstore embeddings llm Rag.question sources
           num_chunks_used].
      rewrite extract_sources_first_occurrences.
      split_and!; try done.
      * apply NoDup_first_occurrences.
      * etrans; [apply length_first_occurrences|]. by rewrite length_map.
  - injection Hask as <- <- <-. cbn. split_and!; try done. constructor.
Qed.

(** X11.  [ask] handles no error of the retrieval or of the generation.
    When the vector store fails to search, [ask] fails with the same
    error and the generator is not invoked; when the generator fails on
    the prompt, [ask] fails with the same error, after the prompt has been
    sent. *)
Theorem ask_propagates_failures
    (self self1 : KB) (vs : VS) (question : str) (k : nat) (show_context : bool)
    (w w1 : World Vec) :
  _init_llm nova_lite self w = (w1, inr self1) ->
  vectorstore self1 = Some vs ->
  (forall (w2 : World Vec) (e : Exc),
      similarity_search vs question k w1 = (w2, inl e) ->
      ask nova_lite self question k show_context w = (w2, inl e)) /\
  (forall (w2 : World Vec) (docs : list Document) (model : ChatBedrock) (e : Exc),
      similarity_search vs question k w1 = (w2, inr docs) ->
      docs <> [] ->
      llm self1 = Some model ->
      complete model (build_prompt (build_context docs) question) = inl e ->
      ask nova_lite self question k show_context w
      = (mkWorld
           (trace w2 ++ [Generate (build_prompt (build_context docs) question)])
           (fs w2),
         inl e)).
Proof.
  intros Hinit Hvs. split.
  - intros w2 e Hs. unfold ask, bind. rewrite Hinit, Hvs.
    unfold search, bind. by rewrite Hs.
  - intros w2 docs model e Hs Hdocs Hllm Hc. unfold ask, bind.
    rewrite Hinit, Hvs. unfold search, bind. rewrite Hs. unfold ret.
    destruct docs as [|doc docs]; [done|]. rewrite Hllm.
    unfold invoke, bind, emit. by rewrite Hc.
Qed.




(** The demo loop reads one line between two questions. *)
Lemma demo_normal_end
    (self kb : KB) (questions stdin left : list str) (w w' : World Vec) :
  demo nova_lite self questions stdin w = (left, w', inr kb) ->
  length questions - 1 <= length stdin /\
  left = drop (length questions - 1) stdin.
Proof.
  revert self stdin w.
  induction questions as [|q questions IH]; intros self stdin w Hrun.
  - cbn in Hrun. injection Hrun as <- _ _. split; [cbn; lia|done].
  - cbn [demo] in Hrun.
    destruct (ask nova_lite self q 3 false w) as [w1 [e|[self1 r]]]; [done|].
    destruct questions as [|q' questions].
    + injection Hrun as <- _ _. split; [cbn; lia|done].
    + destruct stdin as [|line stdin]; [done|].
      apply IH in Hrun as [Hlen ->]. cbn [length] in *.
      rewrite !Nat.sub_succ, !Nat.sub_0_r in *. split; [lia|done].
Qed.

End Object.

Section Program.
Context {Vec D : Type}.
Variable dist : Vec -> Vec -> D.
Variable leb : D -> D -> bool.
Variable titan_embed : str -> Vec.
Variable nova_lite : str -> Exc + str.
Variable disk : gmap str (list TextFile).
Variable split_documents : nat -> nat -> list str -> list Document -> list Document.

(** X9.  When there is nothing to index, because the directory
    [knowledge_base] is missing or holds no readable file, or because the
    splitter gives no chunk, building from scratch fails nowhere and does
    nothing outside the process: no gateway is called and, also with
    [save_index], no index is written.  The knowledge base returned has no
    vector store, so that every question is answered by the
    not-initialized result.  Asking to load an index that is not on disk
    builds from scratch. *)
Theorem build_knowledge_base_nothing_to_index
    (load_existing save_index : bool) (w : World Vec) :
  load_existing = false \/ fs w !! lit "vector_index" = None ->
  create_chunks split_documents
    (load_knowledge_base disk (lit "knowledge_base")) 500 50 = [] ->
  exists kb : KnowledgeBaseRAG (FAISS Vec),
    build_knowledge_base dist leb titan_embed disk split_documents
      load_existing save_index w = (w, inr kb) /\
    documents kb = load_knowledge_base disk (lit "knowledge_base") /\
    chunks kb = [] /\ vectorstore kb = None /\ embeddings kb = None /\
    forall (question : str) (k : nat) (show_context : bool),
    exists (w' : World Vec) (kb' : KnowledgeBaseRAG (FAISS Vec)),
      ask (H := FAISS_store dist leb) nova_lite kb question k show_context w
        = (w', inr (kb', not_initialized question)) /\
      gateway_calls w' = gateway_calls w /\ fs w' = fs w.
Proof.
  intros Hscratch Hchunks.
  exists (mkKnowledgeBaseRAG (load_knowledge_base disk (lit "knowledge_base"))
            [] None None None).
  split; [|split_and!; try done].
  - unfold build_knowledge_base.
    assert (load_existing
              && bool_decide (is_Some (fs w !! lit "vector_index")) = false)
      as ->.
    { destruct Hscratch as [->|Hnone]; [done|]. rewrite Hnone.
      rewrite bool_decide_eq_false_2 by (by intros [? ?]).
      apply andb_false_r. }
    rewrite load_eq. unfold __init__, process.
    cbn [documents chunks vectorstore embeddings llm].
    destruct (load_knowledge_base disk (lit "knowledge_base")) as [|doc docs].
    + unfold lift, index, save. cbn [chunks vectorstore]. unfold ret.
      by destruct save_index.
    + rewrite Hchunks. unfold lift, index, save. cbn [chunks vectorstore].
      unfold ret. by destruct save_index.
  - intros question k show_context.
    destruct (ask_without_store (H := FAISS_store dist leb) nova_lite
                (mkKnowledgeBaseRAG
                   (load_knowledge_base disk (lit "knowledge_base"))
                   [] None None None)
                question k show_context w eq_refl)
      as (w1 & model & Hask & Hg & Hf).
    by eexists _, _.
Qed.

(** X15.  Without [--help], [-h], [--interactive] or [-i], the program
    runs the demo: it ends normally only after reading exactly three
    lines of standard input, one between two of its four questions; with
    fewer lines to read it ends in an error. *)
Theorem main_demo_reads_three_lines
    (argv stdin left : list str) (w w' : World Vec) :
  lit "--help" ∉ argv -> lit "-h" ∉ argv ->
  lit "--interactive" ∉ argv -> lit "-i" ∉ argv ->
  main dist leb titan_embed nova_lite disk split_documents argv stdin w
    = (left, w', inr tt) ->
  3 <= length stdin /\ left = drop 3 stdin.
Proof.
  intros Hhelp Hh Hinteractive Hi. unfold main.
  rewrite (bool_decide_eq_false_2 (lit "--help" ∈ argv)) by done.
  rewrite (bool_decide_eq_false_2 (lit "-h" ∈ argv)) by done.
  rewrite (bool_decide_eq_false_2 (lit "--interactive" ∈ argv)) by done.
  rewrite (bool_decide_eq_false_2 (lit "-i" ∈ argv)) by done.
  cbn [orb].
  destruct (build_knowledge_base _ _ _ _ _ _ _ _) as [w1 [f|kb]]; [done|].
  destruct (demo _ _ _ _ _) as [[left' w2] [f|kb']] eqn:Hdemo; [done|].
  intros [= <- <-]. apply demo_normal_end in Hdemo. exact Hdemo.
Qed.

(** X16.  [load_index] on a path that does not exist fails with
    [FileNotFoundError], the message naming the path: the embeddings
    client has been built, but no gateway is called and nothing is
    written. *)
Theorem load_index_missing
    (self : KnowledgeBaseRAG (FAISS Vec)) (path : str) (w : World Vec) :
  fs w !! path = None ->
  exists w' : World Vec,
    load_index titan_embed self path w
      = (w', inl (FileNotFoundError
                    (lit "Vector store not found at '" ++ path ++
                     lit "'. Create one first with create_vector_store()."))) /\
    gateway_calls w' = gateway_calls w /\ fs w' = fs w.
Proof.
  intros Hnone. eexists.
  unfold load_index, bind, create_embeddings, bind, emit, ret,
    load_vector_store, bind, read_dir.
  cbn [fs]. rewrite Hnone. split; [reflexivity|]. split; [|done].
  unfold gateway_calls. cbn [trace]. rewrite filter_app. apply app_nil_r.
Qed.

End Program.

(** A question to an indexed knowledge base: the three chunks are used,
    two sources are cited. *)
Lemma ask_keeps_knowledge_base_witness :
  exists (kb : KnowledgeBaseRAG (FAISS Z)) (w : World Z) (result : RetrievalResult),
    ask (H := Sample.sample_store) Sample.sample_llm Sample.sample_kb
      (lit "Question?") 3 false empty_world = (w, inr (kb, result)) /\
    vectorstore kb = vectorstore Sample.sample_kb /\
    chunks kb = chunks Sample.sample_kb /\
    is_Some (llm kb) /\
    length (sources result) <= num_chunks_used result.
Proof.
  pose (docs := [Sample.chunk_a1; Sample.chunk_a2; Sample.chunk_b]).
  pose (w' := mkWorld (Vec := Z)
                [ClientCreated (lit "bedrock-runtime");
                 EmbedQuery (lit "Question?");
                 Generate (build_prompt (build_context docs) (lit "Question?"))]
                ∅).
  pose (kb := mkKnowledgeBaseRAG [] (chunks Sample.sample_kb)
                (Some Sample.sample_index) (Some Sample.sample_gateway)
                (Some Sample.sample_model)).
  pose (result := mkRetrievalResult (lit "Question?") (lit "Test answer")
                    [mkSourceInfo (lit "a.txt") (lit "Ann") (lit "Testing");
                     mkSourceInfo (lit "b.txt") (lit "Bob") (lit "Python")] 3).
  assert (ask (H := Sample.sample_store) Sample.sample_llm Sample.sample_kb
            (lit "Question?") 3 false empty_world = (w', inr (kb, result)))
    as Hask by (vm_compute; reflexivity).
  destruct (ask_keeps_knowledge_base (H := Sample.sample_store)
              Sample.sample_llm _ _ _ _ _ _ _ _ Hask)
    as (_ & Hchunks & Hvs & _ & Hllm & _ & _ & _ & Hlen & _).
  exists kb, w', result.
  split; [exact Hask|]. split; [exact Hvs|]. split; [exact Hchunks|].
  split; [exact Hllm|exact Hlen].
Defined.

(** The generator times out: the question fails with that error. *)
Lemma ask_propagates_failures_witness :
  exists w : World Z,
    ask (H := Sample.sample_store) Sample.sample_llm Fixtures.failing_kb
      (lit "Question?") 3 false empty_world
    = (w, inl (UpstreamGatewayError (lit "timeout"))).
Proof.
  pose (docs := [Sample.chunk_a1; Sample.chunk_a2; Sample.chunk_b]).
  pose (w2 := mkWorld (Vec := Z) [EmbedQuery (lit "Question?")] ∅).
  destruct (ask_propagates_failures (H := Sample.sample_store)
              Sample.sample_llm Fixtures.failing_kb Fixtures.failing_kb
              Sample.sample_index (lit "Question?") 3 false
              empty_world empty_world eq_refl eq_refl) as [_ Hgen].
  eexists. apply (Hgen w2 docs Fixtures.failing_model).
  - vm_compute; reflexivity.
  - discriminate.
  - reflexivity.
  - reflexivity.
Defined.




(** No directory, no saved index: [--load] changes nothing. *)
Lemma build_knowledge_base_nothing_to_index_witness :
  exists kb : KnowledgeBaseRAG (FAISS Z),
    build_knowledge_base Sample.sample_dist Z.leb Sample.sample_embed
      Fixtures.empty_disk Fixtures.one_chunk_each true true empty_world
    = (empty_world, inr kb) /\
    vectorstore kb = None.
Proof.
  destruct (build_knowledge_base_nothing_to_index
              Sample.sample_dist Z.leb Sample.sample_embed Sample.sample_llm
              Fixtures.empty_disk Fixtures.one_chunk_each true true empty_world)
    as (kb & Hbuild & _ & _ & Hvs & _).
  - right. reflexivity.
  - reflexivity.
  - by exists kb.
Defined.

Lemma load_index_missing_witness :
  exists w' : World Z,
    load_index Sample.sample_embed __init__ (lit "vector_index") empty_world
      = (w', inl (FileNotFoundError
                    (lit "Vector store not found at 'vector_index'. Create one first with create_vector_store()."))) /\
    gateway_calls w' = [].
Proof.
  destruct (load_index_missing Sample.sample_embed __init__
              (lit "vector_index") empty_world) as (w' & Hload & Hg & _).
  - reflexivity.
  - exists w'. split; [exact Hload|exact Hg].
Defined.

(** The demo over an empty disk, with four lines of input: three are
    read. *)
Lemma main_demo_reads_three_lines_witness :
  3 <= length [lit "a"; lit "b"; lit "c"; lit "d"] /\
  [lit "d"] = drop 3 [lit "a"; lit "b"; lit "c"; lit "d"].
Proof.
  pose (w' := mkWorld (Vec := Z) [ClientCreated (lit "bedrock-runtime")] ∅).
  apply (main_demo_reads_three_lines
           Sample.sample_dist Z.leb Sample.sample_embed Sample.sample_llm
           Fixtures.empty_disk Fixtures.one_chunk_each
           [lit "main.py"] _ _ empty_world w').
  - by_compute.
  - by_compute.
  - by_compute.
  - by_compute.
  - vm_compute; reflexivity.
Defined.

End ShellProps.
